(** * coin_gen: validation and signed coin definitions

    A shallow embedding of [tools/coin_gen.py]: the validation functions
    ([check_support], [check_btc], [check_backends]), the coin-definition
    generators ([convert_icon], [coindef_from_dict], [serialize_coindef],
    [sign]) and the command handlers ([check], [coindefs], [render]).

    External libraries (PIL, zlib, hashlib, ed25519, trezorlib.protobuf,
    requests) and the modules [coin_info] and [coindef], which the file
    imports, are an interface ([Library]); the code of the file itself is
    written out. *)

From Stdlib Require Import ZArith Strings.Byte Ascii String.
From stdpp Require Import base option list gmap strings.

Local Open Scope Z_scope.
#[local] Set Warnings "-register-all".

(** ** Python values, exceptions, results *)

(** The JSON-like values a coin record holds and the bytes the generators
    produce. A [str] is held as the text of its UTF-8 encoding. *)
Inductive pyval : Type :=
| VNone
| VBool (b : bool)
| VInt (n : Z)
| VStr (s : string)
| VBytes (bs : list byte)
| VList (l : list pyval).

(** The exception classes the file can meet. [LibraryError] is any exception
    raised inside an external call (an unreadable image, a network error). *)
Inductive exn : Type :=
| NameError (name : string)
| AttributeError
| TypeError
| ValueError
| KeyError (k : string)
| BinasciiError
| StructError
| RuntimeError (msg : string)
| LibraryError (msg : string).

Inductive result (A : Type) : Type :=
| Ok (a : A)
| Raise (e : exn).
Arguments Ok {A} a.
Arguments Raise {A} e.

#[global] Instance result_ret : MRet result := λ A a, Ok a.
#[global] Instance result_bind : MBind result := λ A B f m,
  match m with
  | Ok a => f a
  | Raise e => Raise e
  end.

#[global] Instance result_fmap : FMap result := λ A B f m,
  match m with
  | Ok a => Ok (f a)
  | Raise e => Raise e
  end.

Definition is_raise {A} (r : result A) : bool :=
  match r with Ok _ => false | Raise _ => true end.

(** A loop whose body may raise: [for x in xs: acc = body(acc, x)]. *)
Fixpoint for_result {A B} (body : A → B → result A) (xs : list B) (acc : A)
  : result A :=
  match xs with
  | [] => Ok acc
  | x :: xs' =>
      match body acc x with
      | Ok acc' => for_result body xs' acc'
      | Raise e => Raise e
      end
  end.

(** Truth value of a Python object ([if not v], [if v]). *)
Definition truthy (v : pyval) : bool :=
  match v with
  | VNone => false
  | VBool b => b
  | VInt n => negb (n =? 0)
  | VStr s => negb (String.eqb s "")
  | VBytes bs => match bs with [] => false | _ => true end
  | VList l => match l with [] => false | _ => true end
  end.

Definition bool_int (b : bool) : Z := if b then 1 else 0.

Definition byte_eqb (a b : byte) : bool := Byte.eqb a b.

Fixpoint list_eqb {A} (eqb : A → A → bool) (l1 l2 : list A) : bool :=
  match l1, l2 with
  | [], [] => true
  | x :: l1', y :: l2' => eqb x y && list_eqb eqb l1' l2'
  | _, _ => false
  end.

(** Python's [==] on these values ([bool] is a subclass of [int]). *)
Fixpoint py_eqb (a b : pyval) : bool :=
  match a, b with
  | VNone, VNone => true
  | VBool x, VBool y => Bool.eqb x y
  | VBool x, VInt y => bool_int x =? y
  | VInt x, VBool y => x =? bool_int y
  | VInt x, VInt y => x =? y
  | VStr x, VStr y => String.eqb x y
  | VBytes x, VBytes y => list_eqb byte_eqb x y
  | VList x, VList y =>
      (fix go (l1 l2 : list pyval) : bool :=
         match l1, l2 with
         | [], [] => true
         | u :: l1', v :: l2' => py_eqb u v && go l1' l2'
         | _, _ => false
         end) x y
  | _, _ => false
  end.

(** ** Bytes and hexadecimal text *)

Definition byte_val (b : byte) : Z := Z.of_N (Byte.to_N b).

Definition byte_of_Z (n : Z) : byte :=
  match Byte.of_N (Z.to_N (n mod 256)) with
  | Some b => b
  | None => x00
  end.

Definition hex_digit (n : Z) : ascii :=
  match n with
  | 0 => "0" | 1 => "1" | 2 => "2" | 3 => "3" | 4 => "4" | 5 => "5"
  | 6 => "6" | 7 => "7" | 8 => "8" | 9 => "9" | 10 => "a" | 11 => "b"
  | 12 => "c" | 13 => "d" | 14 => "e" | _ => "f"
  end%char.

(** [binascii.hexlify(bs).decode("ascii")]: two lower-case digits a byte. *)
Fixpoint hexlify (bs : list byte) : string :=
  match bs with
  | [] => ""
  | b :: bs' =>
      String (hex_digit (byte_val b / 16))
        (String (hex_digit (byte_val b mod 16)) (hexlify bs'))
  end.

Definition hex_value (c : ascii) : option Z :=
  let n := Z.of_N (N_of_ascii c) in
  if (48 <=? n) && (n <=? 57) then Some (n - 48)
  else if (97 <=? n) && (n <=? 102) then Some (n - 87)
  else if (65 <=? n) && (n <=? 70) then Some (n - 55)
  else None.

Fixpoint unhex_pairs (s : string) : option (list byte) :=
  match s with
  | EmptyString => Some []
  | String _ EmptyString => None
  | String c1 (String c2 s') =>
      match hex_value c1, hex_value c2, unhex_pairs s' with
      | Some h, Some l, Some bs => Some (byte_of_Z (16 * h + l) :: bs)
      | _, _, _ => None
      end
  end.

Definition is_ascii_text (s : string) : bool :=
  forallb (λ c, Z.of_N (N_of_ascii c) <? 128) (list_ascii_of_string s).

Definition string_of_bytes (bs : list byte) : string :=
  string_of_list_ascii (map ascii_of_byte bs).

Definition bytes_of_string (s : string) : list byte :=
  map byte_of_ascii (list_ascii_of_string s).

(** [binascii.unhexlify(v)]: an ASCII [str] or [bytes] of an even number of
    hexadecimal digits; anything else raises. *)
Definition unhexlify (v : pyval) : result (list byte) :=
  match v with
  | VStr s =>
      if is_ascii_text s
      then match unhex_pairs s with
           | Some bs => Ok bs
           | None => Raise BinasciiError
           end
      else Raise ValueError
  | VBytes bs =>
      match unhex_pairs (string_of_bytes bs) with
      | Some bs' => Ok bs'
      | None => Raise BinasciiError
      end
  | _ => Raise TypeError
  end.

(** [v.encode("utf-8")]: only a [str] has the method. *)
Definition encode_utf8 (v : pyval) : result (list byte) :=
  match v with
  | VStr s => Ok (bytes_of_string s)
  | _ => Raise AttributeError
  end.

(** [struct.pack(">H", c)]: two bytes, most significant first. *)
Definition struct_pack_H (c : Z) : result (list byte) :=
  if (0 <=? c) && (c <=? 65535)
  then Ok [byte_of_Z (c / 256); byte_of_Z (c mod 256)]
  else Raise StructError.

(** [b[i:-j]] on a list. *)
Definition slice_strip {A} (i j : nat) (l : list A) : list A :=
  drop i (take (length l - j) l).

(** ** Module state: what the imports at the top of the file leave bound *)

(** The names bound by the third [try] block (lines 27-39), in the order of
    its import statements. *)
Inductive build_name : Type :=
| N_binascii | N_struct | N_zlib | N_sha256
| N_ed25519 | N_Image | N_protobuf | N_CoinDef.

#[global] Instance build_name_eq_dec : EqDecision build_name.
Proof. solve_decision. Defined.

Definition build_imports : list build_name :=
  [N_binascii; N_struct; N_zlib; N_sha256;
   N_ed25519; N_Image; N_protobuf; N_CoinDef].

Definition build_name_str (n : build_name) : string :=
  match n with
  | N_binascii => "binascii" | N_struct => "struct" | N_zlib => "zlib"
  | N_sha256 => "sha256" | N_ed25519 => "ed25519" | N_Image => "Image"
  | N_protobuf => "protobuf" | N_CoinDef => "CoinDef"
  end.

(** Which imports succeed on the machine. *)
Record Installed : Type := mkInstalled {
  inst_mako : bool;
  inst_munch : bool;
  inst_requests : bool;
  inst_build : build_name → bool
}.

(** The module globals the handlers read. [requests_bound] is
    [requests is not None]. *)
Record Globals : Type := mkGlobals {
  CAN_RENDER : bool;
  requests_bound : bool;
  bound : list build_name;
  CAN_BUILD_DEFS : bool
}.

(** A [try] block stops at its first failing import: the names before it are
    bound, the flag after the last import is set only when all succeed. *)
Fixpoint import_until_failure (ok : build_name → bool) (ns : list build_name)
  : list build_name :=
  match ns with
  | [] => []
  | n :: ns' => if ok n then n :: import_until_failure ok ns' else []
  end.

Definition module_init (i : Installed) : Globals :=
  {| CAN_RENDER := inst_mako i && inst_munch i;
     requests_bound := inst_requests i;
     bound := import_until_failure (inst_build i) build_imports;
     CAN_BUILD_DEFS := forallb (inst_build i) build_imports |}.

(** Reading a global name: [NameError] when no import bound it. *)
Definition need (g : Globals) (n : build_name) : result unit :=
  if bool_decide (n ∈ bound g) then Ok ()
  else Raise (NameError (build_name_str n)).

(** ** Registry records *)

(** A coin record as [coin_info] hands it over: a dict whose ["key"] and
    ["name"] entries are strings; [crest] holds every other entry. *)
Record Coin : Type := mkCoin {
  ckey : string;
  cname : string;
  crest : gmap string pyval
}.

(** The dict itself. *)
Definition coin_items (c : Coin) : gmap string pyval :=
  <["key" := VStr (ckey c)]> (<["name" := VStr (cname c)]> (crest c)).

(** [coin.get(k)] and [coin.get(k, d)]. *)
Definition coin_get (c : Coin) (k : string) : pyval :=
  default VNone (coin_items c !! k).

Definition coin_get_default (c : Coin) (k : string) (d : pyval) : pyval :=
  default d (coin_items c !! k).

(** [coin[k]]. *)
Definition coin_getitem (c : Coin) (k : string) : result pyval :=
  match coin_items c !! k with
  | Some v => Ok v
  | None => Raise (KeyError k)
  end.

(** [coin_info.get_all()]: the groups the file reads, and [as_list()], the
    coins of every group. *)
Record Defs : Type := mkDefs {
  defs_coins : list Coin;
  defs_misc : list Coin;
  defs_as_list : list Coin
}.

(** How a command ends. *)
Inductive outcome (A : Type) : Type :=
| Done (a : A)
| SysExit (code : Z)
| ClickException (msg : string)
| Uncaught (e : exn).
Arguments Done {A} a.
Arguments SysExit {A} code.
Arguments ClickException {A} msg.
Arguments Uncaught {A} e.

(** The process exit status click gives each ending. *)
Definition exit_status {A} (o : outcome A) : Z :=
  match o with
  | Done _ => 0
  | SysExit code => code
  | ClickException _ => 1
  | Uncaught _ => 1
  end.

(** One RGBA pixel of an 8-bit image. *)
Definition rgba : Type := byte * byte * byte * byte.

(** ** The imported libraries *)

Class Library : Type := {
  (* builtins: str(v) and str(e) as print shows them *)
  py_str : pyval → string;
  exn_str : exn → string;
  (* coin_info; a collision report lists, for each field, each value with the
     coins sharing it, both as str() renders them *)
  validate_btc : Coin → list string;
  validate_support : gmap string pyval → list string;
  find_address_collisions :
    list Coin → list (string * list (string * list string));
  (* PIL.Image *)
  image : Type;
  Image_open : pyval → result image;
  Image_resize_lanczos : image → Z * Z → result image;
  Image_size : image → Z * Z;
  Image_new_RGBA : Z * Z → Z * Z * Z * Z → image;
  Image_alpha_composite : image → image → result image;
  Image_load : image → Z → Z → rgba;
  (* zlib: compressobj(level, wbits), then compress(data) + flush() *)
  zlib_stream : Z → Z → list byte → list byte;
  (* hashlib, ed25519: SigningKey(seed).sign(msg) *)
  sha256_digest : list byte → list byte;
  ed25519_sign : list byte → list byte → result (list byte);
  (* trezorlib.protobuf and coindef.CoinDef: FIELDS in insertion order, each
     tag with (name, type, flags); the attributes of a new instance *)
  FLAG_REPEATED : Z;
  CoinDef_FIELDS : list (Z * (string * string * Z));
  CoinDef_new : gmap string pyval;
  dump_message : gmap string pyval → result (list byte);
  (* requests: requests.get(url).json()["blockHash"] *)
  fetch_block_hash : string → result pyval;
  (* mako: what render does once it is allowed to run *)
  render_templates : list string → outcome unit
}.

(** ** Objects *)

(** [CoinDef] instances live in a store; a reference is an index into it. *)
Abbreviation object := (gmap string pyval).
Abbreviation heap := (list object).
Definition M (A : Type) : Type := heap → result A * heap.

#[global] Instance M_ret : MRet M := λ A a h, (Ok a, h).
#[global] Instance M_bind : MBind M := λ A B f m h,
  match m h with
  | (Ok a, h') => f a h'
  | (Raise e, h') => (Raise e, h')
  end.

Definition lift {A} (r : result A) : M A := λ h, (r, h).

Definition new_object (init : object) : M nat :=
  λ h, (Ok (length h), h ++ [init]).

Definition setattr (ref : nat) (attr : string) (v : pyval) : M unit :=
  λ h, (Ok (), alter (insert attr v) ref h).

Definition attributes (ref : nat) : M object :=
  λ h, (Ok (default ∅ (h !! ref)), h).

Fixpoint for_M {A B} (body : A → B → M A) (xs : list B) (acc : A) : M A :=
  match xs with
  | [] => mret acc
  | x :: xs' => acc' ← body acc x; for_M body xs' acc'
  end.

(** ** coindefs generators (lines 165-212) *)

Section Generators.
Context `{Library}.
Variable g : Globals.

Definition DIM : Z := 32.

(** Line 179: the 16-bit colour of a pixel. *)
Definition rgb565 (p : rgba) : Z :=
  let '(r, g, b, _) := p in
  Z.lor (Z.lor (Z.shiftl (Z.land (byte_val r) 0xF8) 8)
               (Z.shiftl (Z.land (byte_val g) 0xFC) 3))
        (Z.shiftr (Z.land (byte_val b) 0xF8) 3).

(** Lines 175-180: the two nested loops filling [data]. *)
Definition pack_pixels (pix : Z → Z → rgba) : result (list byte) :=
  for_result
    (λ data y,
       for_result
         (λ data x, packed ← struct_pack_H (rgb565 (pix x y));
                    mret (data ++ packed))
         (seqZ 0 DIM) data)
    (seqZ 0 DIM) [].

Definition convert_icon (icon : image) : result (list byte) :=
  _ ← need g N_Image;
  icon ← Image_resize_lanczos icon (DIM, DIM);
  let bg := Image_new_RGBA (Image_size icon) (0, 0, 0, 255) in
  icon ← Image_alpha_composite bg icon;
  let pix := Image_load icon in
  _ ← need g N_struct;
  data ← pack_pixels pix;
  _ ← need g N_zlib;
  let zdata := zlib_stream 9 10 data in
  mret (slice_strip 2 4 zdata).

(** Lines 190-196: the value a field gets. *)
Definition coerce_field (fname : string) (fflags : Z) (val : pyval)
  : result pyval :=
  repeated ← match val with
             | VNone => _ ← need g N_protobuf;
                        mret (negb (Z.land fflags FLAG_REPEATED =? 0))
             | _ => mret false
             end;
  if (repeated : bool) then mret (VList [])
  else if String.eqb fname "signed_message_header"
       then VBytes <$> encode_utf8 val
  else if String.eqb fname "hash_genesis_block"
       then _ ← need g N_binascii; VBytes <$> unhexlify val
  else mret val.

Definition coindef_from_dict (coin : Coin) : M nat :=
  _ ← lift (need g N_CoinDef);
  proto ← new_object CoinDef_new;
  for_M
    (λ proto '(_, (fname, _, fflags)),
       val ← lift (coerce_field fname fflags (coin_get coin fname));
       _ ← setattr proto fname val;
       mret proto)
    CoinDef_FIELDS proto.

Definition serialize_coindef (proto : nat) (icon : list byte)
  : M (list byte) :=
  _ ← setattr proto "icon" (VBytes icon);
  _ ← lift (need g N_protobuf);
  attrs ← attributes proto;
  lift (dump_message attrs).

Definition sign_key_seed : list byte := replicate 32 "A"%byte.

Definition sign (data : list byte) : result (list byte) :=
  _ ← need g N_sha256;
  let h := sha256_digest data in
  _ ← need g N_ed25519;
  ed25519_sign sign_key_seed h.

(** Lines 294-299: the body of the loop of [coindefs]. *)
Definition coindefs_body (coindefs : gmap string string) (coin : Coin)
  : M (gmap string string) :=
  let key := ckey coin in
  _ ← lift (need g N_Image);
  path ← lift (coin_getitem coin "icon");
  icon ← lift (Image_open path);
  proto ← coindef_from_dict coin;
  zicon ← lift (convert_icon icon);
  ser ← serialize_coindef proto zicon;
  sig ← lift (sign ser);
  _ ← lift (need g N_binascii);
  let definition := hexlify (sig ++ ser) in
  mret (<[key := definition]> coindefs).

(** The command: the mapping handed to [json.dump], or the exception that
    ended it. *)
Definition coindefs (defs : Defs) (h : heap)
  : outcome (gmap string string) * heap :=
  match for_M coindefs_body (defs_coins defs) ∅ h with
  | (Ok out, h') => (Done out, h')
  | (Raise e, h') => (Uncaught e, h')
  end.

Definition render (paths : list string) : outcome unit :=
  if negb (CAN_RENDER g)
  then ClickException "Please install 'mako' and 'munch'"
  else render_templates paths.

End Generators.

(** ** Printed output *)

(** One call of [print]: the severity its text starts with, and the rest. *)
Inductive level : Type := ERR | WARN | INFO | OUT.

#[global] Instance level_eq_dec : EqDecision level.
Proof. solve_decision. Defined.

Definition msg : Type := level * string.

Definition printed (m : msg) : string :=
  match m.1 with
  | ERR => "ERR: " +:+ m.2
  | WARN => "WARN: " +:+ m.2
  | INFO => "INFO: " +:+ m.2
  | OUT => m.2
  end.

Definition nl : string := String "010"%char "".

(** ** Python operators used by [check_backends] *)

Definition int_view (v : pyval) : option Z :=
  match v with
  | VInt n => Some n
  | VBool b => Some (bool_int b)
  | _ => None
  end.

(** [a + b]. *)
Definition py_add (a b : pyval) : result pyval :=
  match a, b with
  | VList x, VList y => Ok (VList (x ++ y))
  | VStr x, VStr y => Ok (VStr (x +:+ y))
  | VBytes x, VBytes y => Ok (VBytes (x ++ y))
  | _, _ =>
      match int_view a, int_view b with
      | Some x, Some y => Ok (VInt (x + y))
      | _, _ => Raise TypeError
      end
  end.

(** The characters of a [str]: a byte [10xxxxxx] continues the character
    before it. *)
Definition is_continuation (c : ascii) : bool :=
  let n := Z.of_N (N_of_ascii c) in (128 <=? n) && (n <? 192).

Fixpoint utf8_chars (s : string) : list string :=
  match s with
  | EmptyString => []
  | String c s' =>
      match utf8_chars s' with
      | t :: ts =>
          match t with
          | String d _ =>
              if is_continuation d then String c t :: ts
              else String c "" :: t :: ts
          | EmptyString => String c "" :: ts
          end
      | [] => [String c ""]
      end
  end.

(** [for x in v]. *)
Definition py_iter (v : pyval) : result (list pyval) :=
  match v with
  | VList l => Ok l
  | VStr s => Ok (VStr <$> utf8_chars s)
  | VBytes bs => Ok ((λ b, VInt (byte_val b)) <$> bs)
  | _ => Raise TypeError
  end.

(** ** Validation functions (lines 76-159) *)

(** Line 79: [{coin["key"]: coin["name"] for coin in defs.as_list()}]. *)
Definition coin_names (defs : Defs) : gmap string string :=
  foldl (λ m coin, <[ckey coin := cname coin]> m) ∅ (defs_as_list defs).

(** Line 94: [set(coin["key"] for coin in defs.coins + defs.misc)]. *)
Definition expected_coins (defs : Defs) : gset string :=
  list_to_set (ckey <$> (defs_coins defs ++ defs_misc defs)).

(** Line 106: [set(coin["key"] for coin in defs.as_list())]. *)
Definition coin_set (defs : Defs) : gset string :=
  list_to_set (ckey <$> defs_as_list defs).

Section Validation.
Context `{Library}.
Variable g : Globals.

(** The inner function of [check_support]. *)
Definition coin_name (cnames : gmap string string) (key : string) : string :=
  match cnames !! key with
  | Some n => key +:+ " (" +:+ n +:+ ")"
  | None => key +:+ " <unknown key>"
  end.

(** Lines 87-92. *)
Definition support_shape_step (cnames : gmap string string)
    (st : bool * list msg) (item : string * gmap string pyval)
  : bool * list msg :=
  let '(check_passed, out) := st in
  let '(key, support) := item in
  let errors := validate_support support in
  match errors with
  | [] => (check_passed, out)
  | _ => (false, out ++ [(ERR, "invalid definition for " +:+ coin_name cnames key);
                          (OUT, String.concat nl errors)])
  end.

(** Lines 97-103. *)
Definition support_missing_step (cnames : gmap string string)
    (support_data : list (string * gmap string pyval)) (fail_missing : bool)
    (st : bool * list msg) (coin : string) : bool * list msg :=
  let '(check_passed, out) := st in
  if bool_decide (coin ∈ support_data.*1) then (check_passed, out)
  else if fail_missing
       then (false, out ++ [(ERR, "Missing support info for " +:+ coin_name cnames coin)])
       else (check_passed, out ++ [(WARN, "Missing support info for " +:+ coin_name cnames coin)]).

(** Lines 107-115. *)
Definition support_unknown_step (cnames : gmap string string)
    (coin_set expected_coins : gset string)
    (st : bool * list msg) (key : string) : bool * list msg :=
  let '(check_passed, out) := st in
  let '(check_passed, out) :=
    if bool_decide (key ∈ coin_set) then (check_passed, out)
    else (false, out ++ [(ERR, "Support info found for unknown coin " +:+ key)]) in
  if bool_decide (key ∈ expected_coins) then (check_passed, out)
  else (check_passed, out ++ [(INFO, "Override present for coin " +:+ coin_name cnames key)]).

Definition check_support (defs : Defs)
    (support_data : list (string * gmap string pyval)) (fail_missing : bool)
  : bool * list msg :=
  let check_passed := true in
  let cnames := coin_names defs in
  let st := foldl (support_shape_step cnames) (check_passed, []) support_data in
  let st := foldl (support_missing_step cnames support_data fail_missing) st
                  (elements (expected_coins defs)) in
  foldl (support_unknown_step cnames (coin_set defs) (expected_coins defs)) st
        support_data.*1.

(** Lines 123-128. *)
Definition btc_step (st : bool * list msg) (coin : Coin) : bool * list msg :=
  let '(check_passed, out) := st in
  let errors := validate_btc coin in
  match errors with
  | [] => (check_passed, out)
  | _ => (false, out ++ [(ERR, "invalid definition for " +:+ cname coin);
                          (OUT, String.concat nl errors)])
  end.

(** Lines 132-136. *)
Definition collision_lines
    (collisions : list (string * list (string * list string))) : list msg :=
  '(key, dups) ← collisions;
  match dups with
  | [] => []
  | _ => (WARN, "collisions found in " +:+ key)
         :: ((λ '(k, v), (OUT, "- " +:+ k +:+ " : " +:+ String.concat ", " v))
               <$> dups)
  end.

Definition check_btc (coins : list Coin) : bool * list msg :=
  let check_passed := true in
  let '(check_passed, out) := foldl btc_step (check_passed, []) coins in
  let collisions := find_address_collisions coins in
  (check_passed, out ++ collision_lines collisions).

(** Lines 150-158: one backend; the [try] catches every exception. *)
Definition probe_backend (genesis_block backend : pyval) : result unit :=
  _ ← (if requests_bound g then Ok () else Raise AttributeError);
  url ← py_add backend (VStr "/api/block-index/0");
  block_hash ← match url with
               | VStr u => fetch_block_hash u
               | _ => Raise TypeError
               end;
  if py_eqb block_hash genesis_block then Ok ()
  else Raise (RuntimeError "genesis block mismatch").

Definition backend_step (genesis_block : pyval) (st : bool * list msg)
    (backend : pyval) : bool * list msg :=
  let '(check_passed, out) := st in
  let out := out ++ [(OUT, "checking " +:+ py_str backend +:+ " ... ")] in
  match probe_backend genesis_block backend with
  | Raise e => (false, out ++ [(OUT, exn_str e)])
  | Ok _ => (check_passed, out ++ [(OUT, "OK")])
  end.

(** Lines 143-158: one coin; building [backends] is outside the [try]. *)
Definition backends_coin_step (st : bool * list msg) (coin : Coin)
  : result (bool * list msg) :=
  let genesis_block := coin_get coin "hash_genesis_block" in
  if negb (truthy genesis_block) then Ok st
  else
    backends ← py_add (coin_get_default coin "blockbook" (VList []))
                      (coin_get_default coin "bitcore" (VList []));
    items ← py_iter backends;
    Ok (foldl (backend_step genesis_block) st items).

(** The output printed before an uncaught exception is kept beside it. *)
Fixpoint check_backends_loop (coins : list Coin) (st : bool * list msg)
  : result bool * list msg :=
  match coins with
  | [] => (Ok st.1, st.2)
  | coin :: coins' =>
      match backends_coin_step st coin with
      | Ok st' => check_backends_loop coins' st'
      | Raise e => (Raise e, st.2)
      end
  end.

Definition check_backends (coins : list Coin) : result bool * list msg :=
  check_backends_loop coins (true, []).

(** The [check] command (lines 234-264), given what [coin_info.get_all()]
    and [coin_info.get_support_data()] return. *)
Definition check (defs : Defs)
    (support_data : list (string * gmap string pyval))
    (check_missing_support backend_check : bool)
  : outcome unit * list msg :=
  if backend_check && negb (requests_bound g)
  then (ClickException "You must install requests for backend check", [])
  else
    let all_checks_passed := true in
    let out := [(OUT, "Checking BTC-like coins...")] in
    let '(ok, o) := check_btc (defs_coins defs) in
    let all_checks_passed := if negb ok then false else all_checks_passed in
    let out := out ++ o ++ [(OUT, "Checking support data...")] in
    let '(ok, o) := check_support defs support_data check_missing_support in
    let all_checks_passed := if negb ok then false else all_checks_passed in
    let out := out ++ o in
    let '(r, out) :=
      if backend_check
      then let '(r, o) := check_backends (defs_coins defs) in
           (r, out ++ [(OUT, "Checking backend responses...")] ++ o)
      else (Ok true, out) in
    match r with
    | Raise e => (Uncaught e, out)
    | Ok ok =>
        let all_checks_passed :=
          if backend_check && negb ok then false else all_checks_passed in
        if negb all_checks_passed
        then (SysExit 1, out ++ [(OUT, "Some checks failed.")])
        else (Done (), out ++ [(OUT, "Everything is OK.")])
    end.

End Validation.

(** ** Readings used in the statements *)

Section Readings.
Context `{Library}.
Variable g : Globals.

(** The Definition Encoder: field coercion, then serialization with the
    icon attached (line 296). *)
Definition definition_encoder (coin : Coin) (icon : list byte)
  : M (list byte) :=
  proto ← coindef_from_dict g coin;
  serialize_coindef g proto icon.

(** The attributes the loop of [coindef_from_dict] leaves on an object
    that starts as [o]. *)
Definition coerced_attributes (coin : Coin)
    (fields : list (Z * (string * string * Z))) (o : object)
  : result object :=
  for_result
    (λ o '(_, (fname, _, fflags)),
       val ← coerce_field g fname fflags (coin_get coin fname);
       mret (<[fname := val]> o))
    fields o.

(** The payload as a function of the record and the icon alone. *)
Definition payload_of (coin : Coin) (icon : list byte)
  : result (list byte) :=
  _ ← need g N_CoinDef;
  o ← coerced_attributes coin CoinDef_FIELDS CoinDef_new;
  _ ← need g N_protobuf;
  dump_message (<["icon" := VBytes icon]> o).

End Readings.

(** A key of some coin of the registry that is neither a bitcoin-like nor a
    misc coin: the support entries the validator calls overrides. *)
Definition is_override (defs : Defs) (key : string) : Prop :=
  key ∈ coin_set defs ∧ key ∉ expected_coins defs.


(** The error-level prints of an output. *)
Definition errors_of (out : list msg) : list msg :=
  filter (λ m, m.1 = ERR) out.

(** The icon format in the words of the specification: 5-6-5 colour, most
    significant byte first, rows top to bottom, each left to right. *)
Definition quantize565 (p : rgba) : Z :=
  let '(r, g, b, _) := p in
  (byte_val r / 8) * 2048 + (byte_val g / 4) * 32 + byte_val b / 8.

Definition big_endian16 (c : Z) : list byte :=
  [byte_of_Z (c / 256); byte_of_Z (c mod 256)].

Definition pixel_buffer565 (pix : Z → Z → rgba) : list byte :=
  i ← seqZ 0 (32 * 32);
  big_endian16 (quantize565 (pix (i mod 32) (i / 32))).

(** ** A small library instance for the examples *)

Module Sample.

Definition fields : list (Z * (string * string * Z)) :=
  [(1, ("coin_name", "UnicodeType", 0));
   (9, ("signed_message_header", "BytesType", 0));
   (10, ("hash_genesis_block", "BytesType", 0));
   (26, ("icon", "BytesType", 0));
   (34, ("blockbook", "UnicodeType", 1))].

Definition field_bytes (v : pyval) : list byte :=
  match v with
  | VBytes bs => bs
  | VStr s => bytes_of_string s
  | _ => []
  end.

(** Stand-ins: every field's bytes behind its tag; a digest and a
    signature that only rearrange their input. *)
Definition dump (attrs : gmap string pyval) : result (list byte) :=
  Ok ('(tag, (fname, _, _)) ← fields;
      byte_of_Z tag :: field_bytes (default VNone (attrs !! fname))).

#[export] Instance lib : Library := {|
  py_str v := match v with VStr s => s | _ => "?" end;
  exn_str e := "error";
  validate_btc coin :=
    match coin_get coin "address_type" with
    | VInt _ => []
    | _ => ["address_type is missing"]
    end;
  validate_support support :=
    match support !! "trezor1" with
    | Some _ => []
    | None => ["trezor1 is missing"]
    end;
  find_address_collisions coins :=
    match coins with
    | _ :: _ :: _ => [("address_type", [("0", cname <$> coins)])]
    | _ => [("address_type", [])]
    end;
  image := rgba;
  Image_open path :=
    match path with
    | VStr "black.png" => Ok (x00, x00, x00, xff)
    | VStr "white.png" => Ok (xff, xff, xff, xff)
    | _ => Raise (LibraryError "cannot identify image file")
    end;
  Image_resize_lanczos icon _ := Ok icon;
  Image_size _ := (32, 32);
  Image_new_RGBA _ _ := (x00, x00, x00, xff);
  Image_alpha_composite _ icon := Ok icon;
  Image_load icon _ _ := icon;
  zlib_stream _ _ data := [x78; xda] ++ take 4 data ++ [x00; x00; x00; x01];
  sha256_digest data := take 32 (data ++ replicate 32 x00);
  ed25519_sign seed m := Ok (take 32 seed ++ take 32 m);
  FLAG_REPEATED := 1;
  CoinDef_FIELDS := fields;
  CoinDef_new := ∅;
  dump_message := dump;
  fetch_block_hash _ := Raise (LibraryError "no network");
  render_templates _ := Done ()
|}.

Definition everything : Installed :=
  {| inst_mako := true; inst_munch := true; inst_requests := true;
     inst_build := λ _, true |}.

(** A machine without the [ed25519] package. *)
Definition no_ed25519 : Installed :=
  {| inst_mako := true; inst_munch := true; inst_requests := true;
     inst_build := λ n, bool_decide (n ≠ N_ed25519) |}.

Definition bitcoin : Coin :=
  {| ckey := "bitcoin:BTC"; cname := "Bitcoin";
     crest := {[ "icon" := VStr "black.png";
                 "coin_name" := VStr "Bitcoin";
                 "address_type" := VInt 0;
                 "signed_message_header" := VStr "Bitcoin Signed Message:";
                 "hash_genesis_block" := VStr "00ff" ]} |}.

(** A record without [signed_message_header]. *)
Definition headerless : Coin :=
  {| ckey := "bitcoin:NOH"; cname := "Headerless";
     crest := {[ "icon" := VStr "white.png";
                 "coin_name" := VStr "Headerless";
                 "address_type" := VInt 0;
                 "hash_genesis_block" := VStr "00ff" ]} |}.

Definition testnet : Coin :=
  {| ckey := "bitcoin:TEST"; cname := "Testnet";
     crest := {[ "icon" := VStr "white.png";
                 "coin_name" := VStr "Testnet";
                 "address_type" := VInt 0;
                 "signed_message_header" := VStr "Bitcoin Signed Message:";
                 "hash_genesis_block" := VStr "0a0b" ]} |}.

Definition ether : Coin :=
  {| ckey := "eth:ETH"; cname := "Ethereum"; crest := ∅ |}.

Definition registry (coins : list Coin) : Defs :=
  {| defs_coins := coins; defs_misc := []; defs_as_list := coins ++ [ether] |}.

Definition supported : gmap string pyval := {[ "trezor1" := VStr "1.6.2" ]}.

End Sample.

(** ** What one iteration of a validation loop decides and prints *)

(** A loop step that clears the flag when [ok] fails and appends [out]. *)
Definition step_of {X} (ok : X → bool) (out : X → list msg)
    (st : bool * list msg) (x : X) : bool * list msg :=
  (st.1 && ok x, st.2 ++ out x).

Section Verdicts.
Context `{Library}.

Definition shape_ok (item : string * gmap string pyval) : bool :=
  match validate_support item.2 with [] => true | _ => false end.

Definition shape_msgs (cnames : gmap string string)
    (item : string * gmap string pyval) : list msg :=
  match validate_support item.2 with
  | [] => []
  | errors => [(ERR, "invalid definition for " +:+ coin_name cnames item.1);
               (OUT, String.concat nl errors)]
  end.

Definition missing_ok (support_data : list (string * gmap string pyval))
    (fail_missing : bool) (coin : string) : bool :=
  bool_decide (coin ∈ support_data.*1) || negb fail_missing.

Definition missing_msgs (cnames : gmap string string)
    (support_data : list (string * gmap string pyval))
    (fail_missing : bool) (coin : string) : list msg :=
  if bool_decide (coin ∈ support_data.*1) then []
  else [(if fail_missing then ERR else WARN,
         "Missing support info for " +:+ coin_name cnames coin)].

Definition unknown_ok (defs : Defs) (key : string) : bool :=
  bool_decide (key ∈ coin_set defs).

Definition unknown_msgs (defs : Defs) (key : string) : list msg :=
  (if bool_decide (key ∈ coin_set defs) then []
   else [(ERR, "Support info found for unknown coin " +:+ key)])
  ++ (if bool_decide (key ∈ expected_coins defs) then []
      else [(INFO, "Override present for coin "
                     +:+ coin_name (coin_names defs) key)]).

Definition btc_ok (coin : Coin) : bool :=
  match validate_btc coin with [] => true | _ => false end.

Definition btc_msgs (coin : Coin) : list msg :=
  match validate_btc coin with
  | [] => []
  | errors => [(ERR, "invalid definition for " +:+ cname coin);
               (OUT, String.concat nl errors)]
  end.

End Verdicts.

(** * Properties *)

(** ** Loops *)

Lemma foldl_step_of {X} (ok : X → bool) (out : X → list msg) xs st :
  foldl (step_of ok out) st xs = (st.1 && forallb ok xs, st.2 ++ (xs ≫= out)).
Proof.
  revert st. induction xs as [|x xs IH]; intros [b o]; simpl.
  - by rewrite andb_true_r, app_nil_r.
  - rewrite IH. simpl. by rewrite andb_assoc, app_assoc.
Qed.

Lemma foldl_ext_step {S X} (f g : S → X → S) xs st :
  (∀ s x, f s x = g s x) → foldl f st xs = foldl g st xs.
Proof.
  intros E. revert st. induction xs as [|x xs IH]; intros st; simpl; [done|].
  by rewrite E, IH.
Qed.

Lemma for_result_total {A B} (body : A → B → result A) (f : A → B → A) xs acc :
  (∀ a x, body a x = Ok (f a x)) → for_result body xs acc = Ok (foldl f acc xs).
Proof.
  intros E. revert acc. induction xs as [|x xs IH]; intros acc; simpl; [done|].
  by rewrite E, IH.
Qed.

(** ** The validation loops, iteration by iteration *)

Section ValidationFacts.
Context `{Library}.

Lemma support_shape_step_eq cnames st item :
  support_shape_step cnames st item
  = step_of shape_ok (shape_msgs cnames) st item.
Proof.
  destruct st as [b o], item as [k s].
  unfold support_shape_step, step_of, shape_ok, shape_msgs; simpl.
  destruct (validate_support s); simpl.
  - by rewrite andb_true_r, app_nil_r.
  - by rewrite andb_false_r.
Qed.

Lemma support_missing_step_eq cnames sd fm st coin :
  support_missing_step cnames sd fm st coin
  = step_of (missing_ok sd fm) (missing_msgs cnames sd fm) st coin.
Proof.
  destruct st as [b o].
  unfold support_missing_step, step_of, missing_ok, missing_msgs; simpl.
  destruct (bool_decide (coin ∈ sd.*1)); simpl.
  - by rewrite andb_true_r, app_nil_r.
  - destruct fm; simpl; by rewrite ?andb_false_r, ?andb_true_r.
Qed.

Lemma support_unknown_step_eq defs st key :
  support_unknown_step (coin_names defs) (coin_set defs) (expected_coins defs)
                       st key
  = step_of (unknown_ok defs) (unknown_msgs defs) st key.
Proof.
  destruct st as [b o].
  unfold support_unknown_step, step_of, unknown_ok, unknown_msgs; simpl.
  destruct (bool_decide (key ∈ coin_set defs)),
           (bool_decide (key ∈ expected_coins defs)); simpl;
    by rewrite ?andb_false_r, ?andb_true_r, ?app_nil_r, <- ?app_assoc.
Qed.

Lemma btc_step_eq st coin :
  btc_step st coin = step_of btc_ok btc_msgs st coin.
Proof.
  destruct st as [b o]. unfold btc_step, step_of, btc_ok, btc_msgs; simpl.
  destruct (validate_btc coin); simpl.
  - by rewrite andb_true_r, app_nil_r.
  - by rewrite andb_false_r.
Qed.

(** [check_support] as three passes, each over all of its items. *)
Lemma check_support_eq defs sd fm :
  check_support defs sd fm
  = (forallb shape_ok sd
     && forallb (missing_ok sd fm) (elements (expected_coins defs))
     && forallb (unknown_ok defs) sd.*1,
     (sd ≫= shape_msgs (coin_names defs))
     ++ (elements (expected_coins defs) ≫= missing_msgs (coin_names defs) sd fm)
     ++ (sd.*1 ≫= unknown_msgs defs)).
Proof.
  unfold check_support.
  rewrite (foldl_ext_step _ _ _ _ (support_shape_step_eq (coin_names defs))).
  rewrite foldl_step_of.
  rewrite (foldl_ext_step _ _ _ _
             (support_missing_step_eq (coin_names defs) sd fm)).
  rewrite foldl_step_of.
  rewrite (foldl_ext_step _ _ _ _ (support_unknown_step_eq defs)).
  rewrite foldl_step_of. simpl. by rewrite <- !app_assoc.
Qed.

Lemma check_btc_eq coins :
  check_btc coins
  = (forallb btc_ok coins,
     (coins ≫= btc_msgs) ++ collision_lines (find_address_collisions coins)).
Proof.
  unfold check_btc.
  rewrite (foldl_ext_step _ _ _ _ btc_step_eq), foldl_step_of. done.
Qed.

End ValidationFacts.

(** ** Support validator: unknown, override and missing keys *)

Section SupportFacts.
Context `{Library}.

Lemma forallb_false_at {X} (f : X → bool) (l : list X) x :
  x ∈ l → f x = false → forallb f l = false.
Proof.
  intros Hin Hf. destruct (forallb f l) eqn:E; [|done].
  rewrite forallb_forall in E. rewrite <- Hf. symmetry. apply E.
  by apply list_elem_of_In.
Qed.

Lemma forallb_true_iff {X} (f : X → bool) (l : list X) :
  forallb f l = true ↔ ∀ x, x ∈ l → f x = true.
Proof.
  rewrite forallb_forall. split; intros E x Hx; apply E;
    by apply list_elem_of_In.
Qed.



Lemma unknown_msgs_unknown defs key :
  key ∉ coin_set defs →
  (ERR, "Support info found for unknown coin " +:+ key) ∈ unknown_msgs defs key.
Proof.
  intros Hk. unfold unknown_msgs.
  rewrite (bool_decide_eq_false_2 _ Hk). simpl. left.
Qed.


Lemma missing_msgs_absent cnames sd fm coin :
  coin ∉ sd.*1 →
  missing_msgs cnames sd fm coin
  = [(if fm then ERR else WARN,
      "Missing support info for " +:+ coin_name cnames coin)].
Proof.
  intros Hc. unfold missing_msgs. by rewrite (bool_decide_eq_false_2 _ Hc).
Qed.

(** When [check_support] passes. *)
Lemma check_support_passes defs sd fm :
  (check_support defs sd fm).1 = true
  ↔ (∀ item, item ∈ sd → validate_support item.2 = [])
    ∧ (fm = true → ∀ coin, coin ∈ expected_coins defs → coin ∈ sd.*1)
    ∧ (∀ key, key ∈ sd.*1 → key ∈ coin_set defs).
Proof.
  rewrite check_support_eq. simpl.
  rewrite !andb_true_iff, !forallb_true_iff.
  unfold shape_ok, missing_ok, unknown_ok.
  split.
  - intros [[Hs Hm] Hu]. split; [|split].
    + intros item Hi. specialize (Hs item Hi).
      by destruct (validate_support item.2).
    + intros -> coin Hc. apply elem_of_elements in Hc.
      specialize (Hm coin Hc). rewrite orb_false_r in Hm.
      by apply bool_decide_eq_true in Hm.
    + intros key Hk. specialize (Hu key Hk).
      by apply bool_decide_eq_true in Hu.
  - intros (Hs & Hm & Hu). split; [split|].
    + intros item Hi. by rewrite (Hs item Hi).
    + intros coin Hc. apply elem_of_elements in Hc.
      destruct fm; [|by rewrite orb_true_r].
      rewrite orb_false_r. apply bool_decide_eq_true. by apply Hm.
    + intros key Hk. apply bool_decide_eq_true. by apply Hu.
Qed.


End SupportFacts.

(** Decide a closed proposition by evaluation. *)
Ltac by_compute := apply (bool_decide_unpack _); vm_compute; exact I.

(** C6. A key of the support data that is not an expected key (a key of
    [defs.coins + defs.misc]) and not an override (a key of another group of
    the registry) is a hard error: [check_support] prints
    "ERR: Support info found for unknown coin <key>" and returns [False]. *)
Theorem unknown_support_key_is_hard_error `{Library}
    (defs : Defs) (support_data : list (string * gmap string pyval))
    (fail_missing : bool) (key : string) :
  key ∈ support_data.*1 →
  key ∉ expected_coins defs →
  ¬ is_override defs key →
  (check_support defs support_data fail_missing).1 = false
  ∧ (ERR, "Support info found for unknown coin " +:+ key)
      ∈ (check_support defs support_data fail_missing).2.
Proof.
  intros Hin Hexp Hov.
  assert (Hk : key ∉ coin_set defs) by (intros Hc; apply Hov; by split).
  rewrite check_support_eq. simpl. split.
  - apply andb_false_iff. right.
    apply (forallb_false_at _ _ key Hin). unfold unknown_ok.
    by apply bool_decide_eq_false.
  - rewrite !elem_of_app. right. right.
    apply list_elem_of_bind. exists key. split; [|done].
    by apply unknown_msgs_unknown.
Qed.

Lemma unknown_support_key_is_hard_error_witness :
  let run := @check_support Sample.lib (Sample.registry [Sample.bitcoin])
               [("bitcoin:BTC", Sample.supported);
                ("bitcoin:OLD", Sample.supported)] false in
  run.1 = false
  ∧ (ERR, "Support info found for unknown coin bitcoin:OLD") ∈ run.2.
Proof.
  apply (@unknown_support_key_is_hard_error Sample.lib
           (Sample.registry [Sample.bitcoin])
           [("bitcoin:BTC", Sample.supported);
            ("bitcoin:OLD", Sample.supported)] false "bitcoin:OLD").
  - by_compute.
  - by_compute.
  - intros [Hc _]. revert Hc. by_compute.
Defined.

(** C8. An expected key without support data: with the strictness flag set
    [check_support] prints "ERR: Missing support info ..." and returns
    [False]; with the flag unset it prints the same text as a warning, prints
    no such error, and its verdict is decided by the other two checks alone
    (every entry well-formed, every key known). *)
Theorem missing_support_error_or_warning `{Library}
    (defs : Defs) (support_data : list (string * gmap string pyval))
    (key : string) :
  key ∈ expected_coins defs →
  key ∉ support_data.*1 →
  let text :=
    ("Missing support info for " +:+ coin_name (coin_names defs) key) in
  ((check_support defs support_data true).1 = false
   ∧ (ERR, text) ∈ (check_support defs support_data true).2)
  ∧ ((WARN, text) ∈ (check_support defs support_data false).2
     ∧ ((ERR, text) ∉ (check_support defs support_data false).2)
     ∧ ((check_support defs support_data false).1 = true
        ↔ (∀ item, item ∈ support_data → validate_support item.2 = [])
          ∧ (∀ k, k ∈ support_data.*1 → k ∈ coin_set defs))).
Proof.
  intros Hexp Habs text.
  assert (Hel : key ∈ elements (expected_coins defs))
    by by apply elem_of_elements.
  split; [split|split; [|split]].
  - rewrite check_support_eq. simpl. apply andb_false_iff. left.
    apply andb_false_iff. right. apply (forallb_false_at _ _ key Hel).
    unfold missing_ok. by rewrite (bool_decide_eq_false_2 _ Habs).
  - rewrite check_support_eq. simpl. rewrite !elem_of_app. right. left.
    apply list_elem_of_bind. exists key. split; [|done].
    rewrite missing_msgs_absent by done. left.
  - rewrite check_support_eq. simpl. rewrite !elem_of_app. right. left.
    apply list_elem_of_bind. exists key. split; [|done].
    rewrite missing_msgs_absent by done. left.
  - rewrite check_support_eq. simpl. rewrite !elem_of_app.
    intros [Hm | [Hm | Hm]]; apply list_elem_of_bind in Hm as (x & Hm & _).
    + unfold shape_msgs in Hm. destruct (validate_support x.2); simpl in Hm.
      * by apply elem_of_nil in Hm.
      * apply elem_of_cons in Hm as [Hm | Hm]; [discriminate Hm|].
        apply list_elem_of_singleton in Hm. discriminate Hm.
    + unfold missing_msgs in Hm. destruct (bool_decide (x ∈ support_data.*1)).
      * by apply elem_of_nil in Hm.
      * apply list_elem_of_singleton in Hm. discriminate Hm.
    + unfold unknown_msgs in Hm. apply elem_of_app in Hm as [Hm | Hm].
      * destruct (bool_decide (x ∈ coin_set defs)).
        -- by apply elem_of_nil in Hm.
        -- apply list_elem_of_singleton in Hm. discriminate Hm.
      * destruct (bool_decide (x ∈ expected_coins defs)).
        -- by apply elem_of_nil in Hm.
        -- apply list_elem_of_singleton in Hm. discriminate Hm.
  - rewrite check_support_passes. split.
    + intros (Hs & _ & Hu). by split.
    + intros [Hs Hu]. split; [done|]. split; [discriminate|done].
Qed.

Lemma missing_support_error_or_warning_witness :
  let run := @check_support Sample.lib
               (Sample.registry [Sample.bitcoin; Sample.testnet])
               [("bitcoin:BTC", Sample.supported)] in
  ((run true).1 = false
   ∧ (ERR, "Missing support info for bitcoin:TEST (Testnet)") ∈ (run true).2)
  ∧ (WARN, "Missing support info for bitcoin:TEST (Testnet)") ∈ (run false).2
  ∧ (run false).1 = true.
Proof.
  intros run.
  pose proof (@missing_support_error_or_warning Sample.lib
                (Sample.registry [Sample.bitcoin; Sample.testnet])
                [("bitcoin:BTC", Sample.supported)] "bitcoin:TEST") as W.
  destruct W as [[W1 W2] (W3 & _ & W4)].
  - by_compute.
  - by_compute.
  - split; [split; [exact W1 | exact W2]|]. split; [exact W3|].
    apply W4. split.
    + apply Forall_forall. repeat constructor.
    + apply Forall_forall. repeat constructor.
Defined.

Section OverrideFacts.
Context `{Library}.
Variables (defs : Defs) (key : string).
Hypothesis Hov : is_override defs key.




End OverrideFacts.



(** ** The check command *)

(** Whether an output holds an error-level print. *)
Definition has_err (out : list msg) : bool :=
  existsb (λ m, bool_decide (m.1 = ERR)) out.

Lemma has_err_app a b : has_err (a ++ b) = has_err a || has_err b.
Proof. apply existsb_app. Qed.

Lemma has_err_true out : has_err out = true ↔ ∃ m, m ∈ out ∧ m.1 = ERR.
Proof.
  unfold has_err. rewrite existsb_exists. split.
  - intros (m & Hin & Hm). exists m. split; [by apply list_elem_of_In|].
    by apply bool_decide_eq_true in Hm.
  - intros (m & Hin & Hm). exists m. split; [by apply list_elem_of_In|].
    by apply bool_decide_eq_true.
Qed.

Lemma has_err_bind {X} (ok : X → bool) (out : X → list msg) xs :
  (∀ x, has_err (out x) = negb (ok x)) →
  has_err (xs ≫= out) = negb (forallb ok xs).
Proof.
  intros E. induction xs as [|x xs IH]; [done|].
  rewrite bind_cons, has_err_app, E, IH. cbn [forallb].
  by rewrite negb_andb.
Qed.

Section CheckFacts.
Context `{Library}.

Lemma has_err_shape cnames item :
  has_err (shape_msgs cnames item) = negb (shape_ok item).
Proof. unfold shape_msgs, shape_ok. by destruct (validate_support item.2). Qed.

Lemma has_err_missing cnames sd fm coin :
  has_err (missing_msgs cnames sd fm coin) = negb (missing_ok sd fm coin).
Proof.
  unfold missing_msgs, missing_ok.
  destruct (bool_decide (coin ∈ sd.*1)); [done|]. by destruct fm.
Qed.

Lemma has_err_unknown defs key :
  has_err (unknown_msgs defs key) = negb (unknown_ok defs key).
Proof.
  unfold unknown_msgs, unknown_ok.
  by destruct (bool_decide (key ∈ coin_set defs)),
              (bool_decide (key ∈ expected_coins defs)).
Qed.


(** A collision report prints warnings and plain lines only. *)
Lemma collision_lines_level collisions m :
  m ∈ collision_lines collisions → m.1 = WARN ∨ m.1 = OUT.
Proof.
  unfold collision_lines. intros Hm.
  apply list_elem_of_bind in Hm as ([key dups] & Hm & _).
  destruct dups as [|d dups]; [by apply elem_of_nil in Hm|].
  apply elem_of_cons in Hm as [-> | Hm]; [by left|]. right.
  apply list_elem_of_fmap in Hm as ([k v] & -> & _). done.
Qed.


(** The verdict of [check_support] is [False] exactly when it printed an
    error. *)
Lemma check_support_err defs sd fm :
  has_err (check_support defs sd fm).2 = negb (check_support defs sd fm).1.
Proof.
  rewrite check_support_eq. simpl. rewrite !has_err_app.
  rewrite (has_err_bind shape_ok) by apply has_err_shape.
  rewrite (has_err_bind (missing_ok sd fm)) by apply has_err_missing.
  rewrite (has_err_bind (unknown_ok defs)) by apply has_err_unknown.
  by rewrite !negb_andb, orb_assoc.
Qed.



(** [check] with the backend probe, when [requests] is there and the probe
    runs to its end: a failed backend also makes the exit status 1. *)
Lemma check_with_backend g defs sd cms ok o :
  requests_bound g = true →
  check_backends g (defs_coins defs) = (Ok ok, o) →
  (check g defs sd cms true).1
  = if (check_btc (defs_coins defs)).1 && (check_support defs sd cms).1 && ok
    then Done () else SysExit 1.
Proof.
  intros Hr Hb. unfold check. rewrite Hr, Hb. simpl.
  destruct (check_btc (defs_coins defs)) as [b1 o1].
  destruct (check_support defs sd cms) as [b2 o2]. simpl.
  by destruct b1, b2, ok.
Qed.

End CheckFacts.


(** ** The definition encoder and the store *)

Lemma hexlify_app a b : hexlify (a ++ b) = hexlify a +:+ hexlify b.
Proof. induction a as [|x a IH]; [done|]. simpl. by rewrite IH. Qed.

Lemma hexlify_length bs : String.length (hexlify bs) = (2 * length bs)%nat.
Proof. induction bs as [|b bs IH]; [done|]. simpl. rewrite IH. lia. Qed.

Lemma bind_run {A B} (m : M A) (k : A → M B) (h : heap) :
  (m ≫= k) h
  = match m h with
    | (Ok a, h') => k a h'
    | (Raise e, h') => (Raise e, h')
    end.
Proof. reflexivity. Qed.

Lemma lift_run {A} (r : result A) (h : heap) : lift r h = (r, h).
Proof. reflexivity. Qed.

Lemma ret_run {A} (a : A) (h : heap) : (mret a : M A) h = (Ok a, h).
Proof. reflexivity. Qed.

Lemma result_bind_ok {A B} (a : A) (k : A → result B) : (Ok a ≫= k) = k a.
Proof. reflexivity. Qed.

Lemma result_bind_raise {A B} (e : exn) (k : A → result B) :
  (Raise e ≫= k) = Raise e.
Proof. reflexivity. Qed.

Section EncoderFacts.
Context `{Library}.
Variable g : Globals.

(** Setting an attribute of the newest object. *)
Lemma setattr_newest (h : heap) (o : object) attr v :
  setattr (length h) attr v (h ++ [o]) = (Ok (), h ++ [<[attr := v]> o]).
Proof.
  unfold setattr. f_equal.
  rewrite alter_app_r_alt by reflexivity. by rewrite Nat.sub_diag.
Qed.

Lemma attributes_newest (h : heap) (o : object) :
  attributes (length h) (h ++ [o]) = (Ok o, h ++ [o]).
Proof. unfold attributes. by rewrite list_lookup_middle. Qed.

(** The loop of [coindef_from_dict] works on the new object alone: its
    result is [coerced_attributes], whatever else the store holds. *)
Lemma from_dict_loop coin fields (h : heap) (o : object) :
  ∃ o',
    for_M (λ proto '(_, (fname, _, fflags)),
             val ← lift (coerce_field g fname fflags (coin_get coin fname));
             _ ← setattr proto fname val;
             mret proto)
          fields (length h) (h ++ [o])
    = ((λ _, length h) <$> coerced_attributes g coin fields o, h ++ [o'])
    ∧ (∀ o'', coerced_attributes g coin fields o = Ok o'' → o' = o'').
Proof.
  unfold coerced_attributes. revert o.
  induction fields as [|[tag [[fname ty] fflags]] fields IH]; intros o.
  - exists o. split; [done|]. intros o'' E. by injection E.
  - cbn [for_M for_result]. rewrite !bind_run, lift_run.
    destruct (coerce_field g fname fflags (coin_get coin fname)) as [val|e].
    + rewrite result_bind_ok, bind_run, setattr_newest, ret_run.
      cbv beta iota. apply IH.
    + rewrite result_bind_raise. exists o. split; [done|]. intros o'' E.
      discriminate E.
Qed.

(** [coindef_from_dict] returns a reference to a new object holding the
    coerced attributes. *)
Lemma coindef_from_dict_run coin (h : heap) :
  ∃ h',
    coindef_from_dict g coin h
    = (_ ← need g N_CoinDef;
       (λ _, length h) <$> coerced_attributes g coin CoinDef_FIELDS CoinDef_new,
       h')
    ∧ (∀ o, need g N_CoinDef = Ok () →
            coerced_attributes g coin CoinDef_FIELDS CoinDef_new = Ok o →
            h' = h ++ [o]).
Proof.
  unfold coindef_from_dict. rewrite bind_run, lift_run.
  destruct (need g N_CoinDef) as [[]|e].
  - rewrite result_bind_ok, bind_run. unfold new_object.
    destruct (from_dict_loop coin CoinDef_FIELDS h CoinDef_new) as (o' & E1 & E2).
    rewrite E1. exists (h ++ [o']). split; [done|].
    intros o _ Ho. by rewrite (E2 o Ho).
  - rewrite result_bind_raise. exists h. split; [done|]. intros o E.
    discriminate E.
Qed.

Lemma serialize_newest (h : heap) (o : object) icon :
  serialize_coindef g (length h) icon (h ++ [o])
  = (_ ← need g N_protobuf; dump_message (<["icon" := VBytes icon]> o),
     h ++ [<["icon" := VBytes icon]> o]).
Proof.
  unfold serialize_coindef. rewrite bind_run, setattr_newest.
  rewrite bind_run, lift_run.
  destruct (need g N_protobuf) as [[]|e].
  - by rewrite result_bind_ok, bind_run, attributes_newest, lift_run.
  - by rewrite result_bind_raise.
Qed.

(** The encoder's result is a function of the record and the icon. *)
Lemma definition_encoder_run coin icon (h : heap) :
  (definition_encoder g coin icon h).1 = payload_of g coin icon.
Proof.
  unfold definition_encoder, payload_of. rewrite bind_run.
  destruct (coindef_from_dict_run coin h) as (h' & E1 & E2). rewrite E1.
  destruct (need g N_CoinDef) as [[]|e]; [|by rewrite !result_bind_raise].
  rewrite !result_bind_ok.
  destruct (coerced_attributes g coin CoinDef_FIELDS CoinDef_new) as [o|e].
  - rewrite result_bind_ok. cbn [fmap result_fmap].
    by rewrite (E2 o eq_refl eq_refl), serialize_newest.
  - by rewrite result_bind_raise.
Qed.

End EncoderFacts.


(** ** The coindefs command *)

(** What the loop body of [coindefs] computes for one coin, read without the
    store: the steps of lines 295-298 in the order they run. *)
Definition coin_definition `{Library} (g : Globals) (coin : Coin)
  : result string :=
  _ ← need g N_Image;
  path ← coin_getitem coin "icon";
  icon ← Image_open path;
  _ ← need g N_CoinDef;
  attrs ← coerced_attributes g coin CoinDef_FIELDS CoinDef_new;
  zicon ← convert_icon g icon;
  _ ← need g N_protobuf;
  ser ← dump_message (<["icon" := VBytes zicon]> attrs);
  sig ← sign g ser;
  _ ← need g N_binascii;
  mret (hexlify (sig ++ ser)).

(** The coin has a definition in the mapping a command wrote. *)
Definition processed (o : outcome (gmap string string)) (key : string) : bool :=
  match o with
  | Done out => bool_decide (is_Some (out !! key))
  | _ => false
  end.

(** The claim that a failing coin leaves the others processed. *)
Definition batch_survives_failures `{Library} (g : Globals) (defs : Defs)
    (h : heap) : Prop :=
  ∀ coin, coin ∈ defs_coins defs →
          is_raise (coin_definition g coin) = false →
          processed (coindefs g defs h).1 (ckey coin) = true.

Section CoindefsFacts.
Context `{Library}.
Variable g : Globals.

Lemma coindefs_body_run acc coin (h : heap) :
  (coindefs_body g acc coin h).1
  = (λ d, <[ckey coin := d]> acc) <$> coin_definition g coin.
Proof.
  unfold coindefs_body, coin_definition. rewrite bind_run, lift_run.
  destruct (need g N_Image) as [[]|e]; [|done].
  rewrite result_bind_ok, bind_run, lift_run.
  destruct (coin_getitem coin "icon") as [path|e]; [|done].
  rewrite result_bind_ok, bind_run, lift_run.
  destruct (Image_open path) as [icon|e]; [|done].
  rewrite result_bind_ok, bind_run.
  destruct (coindef_from_dict_run g coin h) as (h' & E1 & E2). rewrite E1.
  destruct (need g N_CoinDef) as [[]|e]; [|done].
  rewrite !result_bind_ok.
  destruct (coerced_attributes g coin CoinDef_FIELDS CoinDef_new) as [o|e];
    [|done].
  rewrite result_bind_ok. cbn [fmap result_fmap].
  rewrite (E2 o eq_refl eq_refl), bind_run, lift_run.
  destruct (convert_icon g icon) as [zicon|e]; [|done].
  rewrite result_bind_ok, bind_run, serialize_newest.
  destruct (need g N_protobuf) as [[]|e]; [|done].
  rewrite !result_bind_ok.
  destruct (dump_message (<["icon" := VBytes zicon]> o)) as [ser|e]; [|done].
  rewrite result_bind_ok, bind_run, lift_run.
  destruct (sign g ser) as [sig|e]; [|done].
  rewrite result_bind_ok, bind_run, lift_run.
  destruct (need g N_binascii) as [[]|e]; done.
Qed.

(** The loop of [coindefs], read without the store. *)
Lemma coindefs_loop_run coins acc (h : heap) :
  (for_M (coindefs_body g) coins acc h).1
  = for_result (λ acc coin, (λ d, <[ckey coin := d]> acc)
                              <$> coin_definition g coin) coins acc.
Proof.
  revert acc h. induction coins as [|coin coins IH]; intros acc h; [done|].
  cbn [for_M for_result]. rewrite bind_run.
  pose proof (coindefs_body_run acc coin h) as E.
  destruct (coindefs_body g acc coin h) as [[acc'|e] h']; simpl in E;
    rewrite <- E; [apply IH | done].
Qed.

Lemma coindefs_run defs (h : heap) :
  (coindefs g defs h).1
  = match for_result (λ acc coin, (λ d, <[ckey coin := d]> acc)
                                    <$> coin_definition g coin)
                     (defs_coins defs) ∅ with
    | Ok out => Done out
    | Raise e => Uncaught e
    end.
Proof.
  unfold coindefs. rewrite <- (coindefs_loop_run _ _ h).
  by destruct (for_M (coindefs_body g) (defs_coins defs) ∅ h) as [[out|e] h'].
Qed.

(** Every entry of the mapping is the definition of a coin with that key. *)
Lemma coindefs_loop_entries coins (acc out : gmap string string) key d :
  for_result (λ acc coin, (λ d, <[ckey coin := d]> acc)
                            <$> coin_definition g coin) coins acc = Ok out →
  out !! key = Some d →
  acc !! key = Some d
  ∨ ∃ coin, coin ∈ coins ∧ ckey coin = key ∧ coin_definition g coin = Ok d.
Proof.
  revert acc. induction coins as [|coin coins IH]; intros acc Hrun Hd.
  - injection Hrun as <-. by left.
  - cbn [for_result] in Hrun.
    destruct (coin_definition g coin) as [d'|e] eqn:Ed; [|done].
    cbn [fmap result_fmap] in Hrun.
    destruct (IH _ Hrun Hd) as [Hacc | (c & Hc & Hk & Hdef)].
    + destruct (decide (ckey coin = key)) as [Hk|Hk].
      * subst key. rewrite lookup_insert_eq in Hacc. injection Hacc as ->.
        right. exists coin. split; [left | done].
      * rewrite lookup_insert_ne in Hacc by done. by left.
    + right. exists c. split; [by right | done].
Qed.

(** The loop stops at the first coin whose definition raises. *)
Lemma coindefs_loop_first_failure pre coin post (acc : gmap string string) e :
  (∀ p, p ∈ pre → is_raise (coin_definition g p) = false) →
  coin_definition g coin = Raise e →
  for_result (λ acc coin, (λ d, <[ckey coin := d]> acc)
                            <$> coin_definition g coin)
             (pre ++ coin :: post) acc = Raise e.
Proof.
  revert acc. induction pre as [|p pre IH]; intros acc Hpre Hc.
  - cbn [app for_result]. by rewrite Hc.
  - cbn [app for_result].
    assert (Hp : is_raise (coin_definition g p) = false) by (apply Hpre; left).
    destruct (coin_definition g p) as [d|e']; [|done].
    cbn [fmap result_fmap]. apply IH; [|done]. intros q Hq. apply Hpre. by right.
Qed.

End CoindefsFacts.

(** C1. Every definition in the mapping [coindefs] writes is, for a coin of
    the registry with that key, the hex text of the signature bytes followed
    by the payload bytes: the payload is what the Definition Encoder returns
    for the coin and its converted icon, and the signature is
    [SigningKey(b"A" * 32).sign(sha256(payload).digest())]; in the text the
    signature's digits come first and the payload's follow. *)
Theorem coindefs_definition_is_signature_then_payload `{Library}
    (g : Globals) (defs : Defs) (h : heap)
    (out : gmap string string) (key definition : string) :
  (coindefs g defs h).1 = Done out →
  out !! key = Some definition →
  ∃ coin path img icon ser sig,
    coin ∈ defs_coins defs ∧ ckey coin = key
    ∧ coin_getitem coin "icon" = Ok path
    ∧ Image_open path = Ok img
    ∧ convert_icon g img = Ok icon
    ∧ (∀ h' : heap, (definition_encoder g coin icon h').1 = Ok ser)
    ∧ ed25519_sign (replicate 32 "A"%byte) (sha256_digest ser) = Ok sig
    ∧ definition = hexlify (sig ++ ser)
    ∧ definition = hexlify sig +:+ hexlify ser.
Proof.
  intros Hrun Hd. rewrite coindefs_run in Hrun.
  destruct (for_result _ (defs_coins defs) ∅) as [out'|e] eqn:Eloop; [|done].
  injection Hrun as ->.
  destruct (coindefs_loop_entries g _ _ _ _ _ Eloop Hd)
    as [Hempty | (coin & Hc & Hk & Hdef)].
  { by rewrite lookup_empty in Hempty. }
  unfold coin_definition in Hdef.
  destruct (need g N_Image) as [[]|?]; [|done]. rewrite result_bind_ok in Hdef.
  destruct (coin_getitem coin "icon") as [path|?] eqn:Epath; [|done].
  rewrite result_bind_ok in Hdef.
  destruct (Image_open path) as [img|?] eqn:Eimg; [|done].
  rewrite result_bind_ok in Hdef.
  destruct (need g N_CoinDef) as [[]|?] eqn:ECoinDef; [|done].
  rewrite result_bind_ok in Hdef.
  destruct (coerced_attributes g coin CoinDef_FIELDS CoinDef_new) as [attrs|?]
    eqn:Eattrs; [|done].
  rewrite result_bind_ok in Hdef.
  destruct (convert_icon g img) as [icon|?] eqn:Eicon; [|done].
  rewrite result_bind_ok in Hdef.
  destruct (need g N_protobuf) as [[]|?] eqn:Eproto; [|done].
  rewrite result_bind_ok in Hdef.
  destruct (dump_message (<["icon" := VBytes icon]> attrs)) as [ser|?] eqn:Edump;
    [|done].
  rewrite result_bind_ok in Hdef.
  destruct (sign g ser) as [sig|?] eqn:Esign; [|done].
  rewrite result_bind_ok in Hdef.
  destruct (need g N_binascii) as [[]|?]; [|done].
  rewrite result_bind_ok in Hdef. injection Hdef as <-.
  exists coin, path, img, icon, ser, sig.
  split_and!; try done.
  - intros h'. rewrite definition_encoder_run. unfold payload_of.
    by rewrite ECoinDef, result_bind_ok, Eattrs, result_bind_ok, Eproto,
      result_bind_ok.
  - unfold sign in Esign.
    destruct (need g N_sha256) as [[]|?]; [|done].
    rewrite result_bind_ok in Esign.
    by destruct (need g N_ed25519) as [[]|?].
  - apply hexlify_app.
Qed.

Lemma coindefs_definition_is_signature_then_payload_witness :
  ∃ (out : gmap string string) (definition : string),
    (@coindefs Sample.lib (module_init Sample.everything)
       (Sample.registry [Sample.bitcoin; Sample.testnet]) []).1 = Done out
    ∧ out !! "bitcoin:BTC" = Some definition
    ∧ ∃ ser sig,
        @ed25519_sign Sample.lib (replicate 32 "A"%byte)
          (@sha256_digest Sample.lib ser) = Ok sig
        ∧ definition = hexlify (sig ++ ser).
Proof.
  pose (run := (@coindefs Sample.lib (module_init Sample.everything)
                  (Sample.registry [Sample.bitcoin; Sample.testnet]) []).1).
  pose (out := match run with Done o => o | _ => ∅ end).
  pose (definition := default "" (out !! "bitcoin:BTC")).
  exists out, definition.
  assert (E1 : run = Done out) by (vm_compute; reflexivity).
  assert (E2 : out !! "bitcoin:BTC" = Some definition)
    by (vm_compute; reflexivity).
  split; [exact E1|]. split; [exact E2|].
  destruct (@coindefs_definition_is_signature_then_payload Sample.lib
              (module_init Sample.everything)
              (Sample.registry [Sample.bitcoin; Sample.testnet]) []
              out "bitcoin:BTC" definition E1 E2)
    as (coin & path & img & icon & ser & sig & _ & _ & _ & _ & _ & _ & Hs & Hd & _).
  exists ser, sig. split; [exact Hs | exact Hd].
Defined.

(** C3 (as the code has it). The loop of [coindefs] has no exception
    handler: when the steps of one coin raise (opening or converting the
    icon, encoding, signing) and every coin before it went through, the
    command ends with that exception, and no coin, before or after, has a
    definition written. *)
Theorem coindefs_aborts_at_first_failure `{Library}
    (g : Globals) (defs : Defs) (h : heap)
    (pre : list Coin) (coin : Coin) (post : list Coin) (e : exn) :
  defs_coins defs = pre ++ coin :: post →
  (∀ p, p ∈ pre → is_raise (coin_definition g p) = false) →
  coin_definition g coin = Raise e →
  (coindefs g defs h).1 = Uncaught e
  ∧ ∀ key, processed (coindefs g defs h).1 key = false.
Proof.
  intros Hcoins Hpre Hc.
  assert (E : (coindefs g defs h).1 = Uncaught e).
  { rewrite coindefs_run, Hcoins.
    by rewrite (coindefs_loop_first_failure g pre coin post ∅ e Hpre Hc). }
  split; [exact E|]. intros key. by rewrite E.
Qed.

Lemma coindefs_aborts_at_first_failure_witness :
  let run := (@coindefs Sample.lib (module_init Sample.everything)
                (Sample.registry [Sample.bitcoin; Sample.headerless;
                                  Sample.testnet]) []).1 in
  run = Uncaught AttributeError ∧ ∀ key, processed run key = false.
Proof.
  apply (@coindefs_aborts_at_first_failure Sample.lib
           (module_init Sample.everything)
           (Sample.registry [Sample.bitcoin; Sample.headerless; Sample.testnet])
           [] [Sample.bitcoin] Sample.headerless [Sample.testnet]
           AttributeError).
  - reflexivity.
  - intros p Hp. apply list_elem_of_singleton in Hp. subst p.
    vm_compute. reflexivity.
  - vm_compute. reflexivity.
Defined.

(** C3, the claim as stated, fails: with a record that lacks
    [signed_message_header] ahead of a sound one, the command ends with
    [AttributeError] and the sound coin, which alone would be processed,
    gets no definition. *)
Lemma coindefs_failure_is_not_isolated :
  let g := module_init Sample.everything in
  let defs := Sample.registry [Sample.headerless; Sample.testnet] in
  is_raise (@coin_definition Sample.lib g Sample.headerless) = true
  ∧ is_raise (@coin_definition Sample.lib g Sample.testnet) = false
  ∧ (@coindefs Sample.lib g defs []).1 = Uncaught AttributeError
  ∧ processed (@coindefs Sample.lib g (Sample.registry [Sample.testnet]) []).1
      "bitcoin:TEST" = true
  ∧ ¬ @batch_survives_failures Sample.lib g defs [].
Proof.
  intros g defs.
  assert (E2 : is_raise (@coin_definition Sample.lib g Sample.testnet) = false)
    by (vm_compute; reflexivity).
  assert (E3 : (@coindefs Sample.lib g defs []).1 = Uncaught AttributeError)
    by (vm_compute; reflexivity).
  split; [vm_compute; reflexivity|]. split; [exact E2|]. split; [exact E3|].
  split; [vm_compute; reflexivity|].
  intros Hclaim. specialize (Hclaim Sample.testnet).
  rewrite E3 in Hclaim. simpl in Hclaim.
  assert (false = true) as Habs; [|discriminate Habs].
  apply Hclaim; [|exact E2]. right. left.
Qed.

(** ** Commands and missing libraries *)

(** [render] refuses at once when the template engine is missing. *)
Lemma render_refuses_without_mako `{Library} (g : Globals) paths :
  CAN_RENDER g = false →
  render g paths = ClickException "Please install 'mako' and 'munch'".
Proof. intros E. unfold render. by rewrite E. Qed.

(** [check] refuses at once, printing nothing, when the backend probe is
    asked for and [requests] is missing. *)
Lemma check_refuses_without_requests `{Library} (g : Globals) defs sd cms :
  requests_bound g = false →
  check g defs sd cms true
  = (ClickException "You must install requests for backend check", []).
Proof. intros E. unfold check. by rewrite E. Qed.

(** [coindefs] has no such guard: it never ends with a [ClickException]. *)
Lemma coindefs_never_refuses `{Library} (g : Globals) defs (h : heap) msg :
  (coindefs g defs h).1 ≠ ClickException msg.
Proof.
  unfold coindefs.
  by destruct (for_M (coindefs_body g) (defs_coins defs) ∅ h) as [[out|e] h'].
Qed.

(** C4 (where the code departs from it). On a machine without the [ed25519]
    package [CAN_BUILD_DEFS] is [False], yet [coindefs] starts: with a coin
    in the registry it ends in [NameError] at [Image.open], and with an empty
    registry it runs to the end and writes an empty mapping. *)
Theorem coindefs_runs_without_build_libraries :
  let g := module_init Sample.no_ed25519 in
  CAN_BUILD_DEFS g = false
  ∧ (@coindefs Sample.lib g (Sample.registry [Sample.bitcoin]) []).1
    = Uncaught (NameError "Image")
  ∧ (@coindefs Sample.lib g (Sample.registry []) []).1 = Done ∅.
Proof. repeat split; vm_compute; reflexivity. Qed.

(** ** Field coercion on missing values *)

Section CoercionFacts.
Context `{Library}.
Variable g : Globals.

(** A missing value of a repeatable field becomes the empty list. *)
Lemma coerce_field_repeated fname fflags :
  N_protobuf ∈ bound g →
  Z.land fflags FLAG_REPEATED ≠ 0 →
  coerce_field g fname fflags VNone = Ok (VList []).
Proof.
  intros Hb Hf. unfold coerce_field, need. cbv beta iota.
  rewrite (bool_decide_eq_true_2 _ Hb). cbv iota.
  rewrite result_bind_ok. unfold mret, result_ret; cbv beta. rewrite result_bind_ok.
  by rewrite (proj2 (Z.eqb_neq _ _) Hf).
Qed.

(** A missing value of one of the two coerced fields, when the field is not
    repeatable: the method call on [None] raises. *)
Lemma coerce_field_missing fname fflags :
  fname = "signed_message_header" ∨ fname = "hash_genesis_block" →
  Z.land fflags FLAG_REPEATED = 0 →
  ∃ e, coerce_field g fname fflags VNone = Raise e
       ∧ (N_protobuf ∈ bound g → N_binascii ∈ bound g →
          e = if String.eqb fname "signed_message_header"
              then AttributeError else TypeError).
Proof.
  intros Hname Hf. unfold coerce_field, need. cbv beta iota. rewrite Hf.
  destruct (bool_decide (N_protobuf ∈ bound g)) eqn:Ep.
  - rewrite ?result_bind_ok. unfold mret, result_ret; cbv beta.
    rewrite ?result_bind_ok. cbn [Z.eqb negb]. destruct Hname as [-> | ->].
    + exists AttributeError. split; reflexivity.
    + destruct (bool_decide (N_binascii ∈ bound g)) eqn:Eb.
      * exists TypeError. split; reflexivity.
      * exists (NameError "binascii"). split; [reflexivity|].
        intros _ Hb. apply bool_decide_eq_false in Eb. done.
  - exists (NameError "protobuf"). split; [done|].
    intros Hp. apply bool_decide_eq_false in Ep. done.
Qed.

(** One raising field makes the whole loop raise. *)
Lemma coerced_attributes_raises coin fields tag fname ty fflags (o : object) :
  (tag, (fname, ty, fflags)) ∈ fields →
  is_raise (coerce_field g fname fflags (coin_get coin fname)) = true →
  is_raise (coerced_attributes g coin fields o) = true.
Proof.
  unfold coerced_attributes. intros Hin Hr. revert o.
  induction fields as [|[tag' [[fname' ty'] fflags']] fields IH]; intros o.
  - by apply elem_of_nil in Hin.
  - cbn [for_result].
    destruct (coerce_field g fname' fflags' (coin_get coin fname')) as [v|e] eqn:E.
    + rewrite result_bind_ok. unfold mret, result_ret; cbv beta.
      apply elem_of_cons in Hin as [Hin | Hin]; [|by apply IH].
      injection Hin as -> -> -> ->. by rewrite E in Hr.
    + done.
Qed.

End CoercionFacts.

(** C10. The empty-sequence substitution is for repeatable fields only. For
    a record without a value for [signed_message_header] or
    [hash_genesis_block], a field the table does not flag as repeated, the
    coercion raises ([AttributeError] from [None.encode], [TypeError] from
    [unhexlify(None)], when the modules are bound), and so do
    [coindef_from_dict] and the encoder: an exception, not a returned
    value. A missing value of a repeatable field becomes the empty list. *)
Theorem coindef_from_dict_raises_on_missing_field `{Library}
    (g : Globals) (coin : Coin) (h : heap)
    (tag : Z) (fname ty : string) (fflags : Z) :
  fname = "signed_message_header" ∨ fname = "hash_genesis_block" →
  (tag, (fname, ty, fflags)) ∈ CoinDef_FIELDS →
  Z.land fflags FLAG_REPEATED = 0 →
  coin_get coin fname = VNone →
  (∃ e, coerce_field g fname fflags (coin_get coin fname) = Raise e
        ∧ (N_protobuf ∈ bound g → N_binascii ∈ bound g →
           e = if String.eqb fname "signed_message_header"
               then AttributeError else TypeError))
  ∧ (∃ e, (coindef_from_dict g coin h).1 = Raise e)
  ∧ (∀ icon, ∃ e, (definition_encoder g coin icon h).1 = Raise e)
  ∧ (∀ other flags, N_protobuf ∈ bound g → Z.land flags FLAG_REPEATED ≠ 0 →
       coerce_field g other flags VNone = Ok (VList [])).
Proof.
  intros Hname Hin Hflags Hval.
  destruct (coerce_field_missing g fname fflags Hname Hflags) as (e & He & Hcls).
  assert (Hloop : ∀ o, is_raise (coerced_attributes g coin CoinDef_FIELDS o) = true).
  { intros o. apply (coerced_attributes_raises g coin _ tag fname ty fflags o Hin).
    by rewrite Hval, He. }
  split_and!.
  - exists e. by rewrite Hval.
  - destruct (coindef_from_dict_run g coin h) as (h' & E & _). rewrite E.
    cbn [fst]. destruct (need g N_CoinDef) as [[]|e0]; [|by exists e0].
    rewrite result_bind_ok. specialize (Hloop CoinDef_new).
    destruct (coerced_attributes g coin CoinDef_FIELDS CoinDef_new) as [o|e1];
      [done | by exists e1].
  - intros icon. rewrite definition_encoder_run. unfold payload_of.
    destruct (need g N_CoinDef) as [[]|e0]; [|by exists e0].
    rewrite result_bind_ok. specialize (Hloop CoinDef_new).
    destruct (coerced_attributes g coin CoinDef_FIELDS CoinDef_new) as [o|e1];
      [done | by exists e1].
  - intros other flags. apply coerce_field_repeated.
Qed.

Lemma coindef_from_dict_raises_on_missing_field_witness :
  (@coindef_from_dict Sample.lib (module_init Sample.everything)
     Sample.headerless []).1 = Raise AttributeError
  ∧ ∃ e, (@coindef_from_dict Sample.lib (module_init Sample.everything)
            Sample.headerless []).1 = Raise e.
Proof.
  split; [vm_compute; reflexivity|].
  apply (@coindef_from_dict_raises_on_missing_field Sample.lib
           (module_init Sample.everything) Sample.headerless []
           9 "signed_message_header" "BytesType" 0).
  - by left.
  - by_compute.
  - reflexivity.
  - vm_compute. reflexivity.
Defined.

(** ** The icon encoder *)

Lemma byte_val_range b : 0 ≤ byte_val b < 256.
Proof. unfold byte_val. pose proof (Byte.to_N_bounded b). lia. Qed.

(** Bits that do not overlap add up. *)
Lemma lor_low a b n :
  0 ≤ n → 0 ≤ b < 2 ^ n → Z.lor (a * 2 ^ n) b = a * 2 ^ n + b.
Proof.
  intros Hn Hb.
  assert (Hland : Z.land (a * 2 ^ n) b = 0).
  { apply Z.bits_inj'. intros i Hi.
    rewrite Z.land_spec, Z.bits_0.
    destruct (Z.lt_ge_cases i n) as [Hlt | Hge].
    - by rewrite Z.mul_pow2_bits_low.
    - assert (Hbi : Z.testbit b i = false).
      { apply Z.testbit_false; [done|].
        rewrite Z.div_small; [done|]. split; [lia|].
        apply Z.lt_le_trans with (2 ^ n); [lia|].
        apply Z.pow_le_mono_r; lia. }
      by rewrite Hbi, andb_false_r. }
  rewrite <- Z.lxor_lor by done. symmetry. by apply Z.add_nocarry_lxor.
Qed.

Lemma red_bits r :
  Z.shiftl (Z.land (byte_val r) 0xF8) 8 = (byte_val r / 8) * 2 ^ 11.
Proof. by destruct r. Qed.

Lemma green_bits g :
  Z.shiftl (Z.land (byte_val g) 0xFC) 3 = (byte_val g / 4) * 2 ^ 5.
Proof. by destruct g. Qed.

Lemma blue_bits b : Z.shiftr (Z.land (byte_val b) 0xF8) 3 = byte_val b / 8.
Proof. by destruct b. Qed.

(** Line 179 computes the 5-6-5 value: five bits of red, six of green, five
    of blue, from the most significant bit down. *)
Lemma rgb565_quantize p : rgb565 p = quantize565 p.
Proof.
  destruct p as [[[r g] b] a]. unfold rgb565, quantize565.
  rewrite red_bits, green_bits, blue_bits.
  pose proof (byte_val_range r). pose proof (byte_val_range g).
  pose proof (byte_val_range b).
  assert (0 ≤ byte_val r / 8 < 32) by (split; [apply Z.div_pos | apply Z.div_lt_upper_bound]; lia).
  assert (0 ≤ byte_val g / 4 < 64) by (split; [apply Z.div_pos | apply Z.div_lt_upper_bound]; lia).
  assert (0 ≤ byte_val b / 8 < 32) by (split; [apply Z.div_pos | apply Z.div_lt_upper_bound]; lia).
  rewrite lor_low; [|lia|change (2 ^ 5) with 32; change (2 ^ 11) with 2048; lia].
  replace (byte_val r / 8 * 2 ^ 11 + byte_val g / 4 * 2 ^ 5)
    with ((byte_val r / 8 * 64 + byte_val g / 4) * 2 ^ 5)
    by (change (2 ^ 5) with 32; change (2 ^ 11) with 2048; lia).
  rewrite lor_low; [|lia|change (2 ^ 5) with 32; lia].
  change (2 ^ 5) with 32. lia.
Qed.

Lemma quantize565_range p : 0 ≤ quantize565 p ≤ 65535.
Proof.
  destruct p as [[[r g] b] a]. unfold quantize565.
  pose proof (byte_val_range r). pose proof (byte_val_range g).
  pose proof (byte_val_range b).
  assert (0 ≤ byte_val r / 8 < 32) by (split; [apply Z.div_pos | apply Z.div_lt_upper_bound]; lia).
  assert (0 ≤ byte_val g / 4 < 64) by (split; [apply Z.div_pos | apply Z.div_lt_upper_bound]; lia).
  assert (0 ≤ byte_val b / 8 < 32) by (split; [apply Z.div_pos | apply Z.div_lt_upper_bound]; lia).
  lia.
Qed.

(** [struct.pack] never fails on a pixel's colour. *)
Lemma struct_pack_pixel p :
  struct_pack_H (rgb565 p) = Ok (big_endian16 (quantize565 p)).
Proof.
  rewrite rgb565_quantize. unfold struct_pack_H, big_endian16.
  pose proof (quantize565_range p) as [Hlo Hhi].
  apply Z.leb_le in Hlo, Hhi. by rewrite Hlo, Hhi.
Qed.

Lemma foldl_append {X Y} (chunk : X → list Y) xs (data : list Y) :
  foldl (λ data x, data ++ chunk x) data xs = data ++ (xs ≫= chunk).
Proof.
  revert data. induction xs as [|x xs IH]; intros data; simpl.
  - by rewrite app_nil_r.
  - by rewrite IH, app_assoc.
Qed.

Lemma bind_bind {X Y W} (f : X → list Y) (k : Y → list W) (l : list X) :
  (l ≫= f) ≫= k = l ≫= (λ x, f x ≫= k).
Proof.
  induction l as [|x l IH]; [done|].
  by rewrite !bind_cons, bind_app, IH.
Qed.

Lemma length_bind_chunks {X Y} (f : X → list Y) (n : nat) (l : list X) :
  (∀ x, length (f x) = n) → length (l ≫= f) = (n * length l)%nat.
Proof.
  intros E. induction l as [|x l IH]; [simpl; lia|].
  rewrite bind_cons, length_app, E, IH. simpl. lia.
Qed.

(** The pixel positions in the order of the two loops: rows top to bottom,
    each left to right. *)
Lemma row_major_positions :
  (seqZ 0 32 ≫= λ y, seqZ 0 32 ≫= λ x, [(x, y)])
  = (λ i, (i mod 32, i / 32)) <$> seqZ 0 (32 * 32).
Proof. vm_compute. reflexivity. Qed.

(** Lines 175-180 fill [data] with the 5-6-5 pixels, two bytes each, most
    significant first, in row-major order. *)
Lemma pack_pixels_buffer pix : pack_pixels pix = Ok (pixel_buffer565 pix).
Proof.
  unfold pack_pixels, pixel_buffer565, DIM.
  set (chunk := λ '(x, y), big_endian16 (quantize565 (pix x y))).
  assert (Hinner : ∀ data y,
    for_result (λ data x, packed ← struct_pack_H (rgb565 (pix x y));
                          mret (data ++ packed)) (seqZ 0 32) data
    = Ok (data ++ (seqZ 0 32 ≫= λ x, chunk (x, y)))).
  { intros data y. rewrite <- foldl_append. apply for_result_total.
    intros d x. by rewrite struct_pack_pixel. }
  rewrite (for_result_total _
             (λ data y, data ++ (seqZ 0 32 ≫= λ x, chunk (x, y))))
    by apply Hinner.
  rewrite foldl_append, app_nil_l. apply (f_equal Ok).
  transitivity ((seqZ 0 32 ≫= λ y, seqZ 0 32 ≫= λ x, [(x, y)]) ≫= chunk).
  - rewrite bind_bind. apply list_bind_ext; [|done]. intros y.
    rewrite bind_bind. apply list_bind_ext; [|done]. intros x.
    simpl. by rewrite ?app_nil_r.
  - rewrite row_major_positions, list_fmap_bind. done.
Qed.

Lemma pixel_buffer565_length pix : length (pixel_buffer565 pix) = 2048%nat.
Proof.
  unfold pixel_buffer565.
  rewrite (length_bind_chunks _ 2) by done. by rewrite length_seqZ.
Qed.

(** The chunk of position [i] in a buffer of equal-sized chunks. *)
Lemma chunk_at {Y} (f : Z → list Y) (k : nat) (n i : Z) :
  (∀ x, length (f x) = k) → 0 ≤ i < n →
  take k (drop (k * Z.to_nat i) (seqZ 0 n ≫= f)) = f i.
Proof.
  intros Hk Hi.
  replace n with (i + (1 + (n - i - 1))) by lia.
  rewrite seqZ_app by lia. rewrite (seqZ_app _ 1) by lia.
  rewrite !bind_app. change (seqZ (0 + i) 1) with [0 + i].
  rewrite drop_app_length'.
  - rewrite bind_cons, <- app_assoc. by apply take_app_length'.
  - rewrite (length_bind_chunks _ k) by done. by rewrite length_seqZ.
Qed.

(** [b[2:-4]] drops a two-byte head and a four-byte tail. *)
Lemma slice_strip_header_checksum {X} (hd body tl : list X) :
  length hd = 2%nat → length tl = 4%nat →
  slice_strip 2 4 (hd ++ body ++ tl) = body.
Proof.
  intros Hhd Htl. unfold slice_strip.
  rewrite app_assoc, (take_app_length' (hd ++ body) tl).
  - by rewrite drop_app_length'.
  - rewrite !length_app. lia.
Qed.

(** C9. For an image that PIL resizes and composites (one with an alpha
    channel), [convert_icon] (1) resizes it to 32 by 32 with the Lanczos
    filter, (2) composites it over an opaque black image of that size, (3)
    writes each pixel as its 5-6-5 colour in two bytes, most significant
    first, in row-major order, 2048 bytes in all, (4) compresses them with
    zlib at level 9 and window bits 10, and (5) returns the stream without
    its first two and last four bytes. *)
Theorem convert_icon_is_stripped_deflate_of_rgb565 `{Library}
    (g : Globals) (icon resized flat : image) :
  N_Image ∈ bound g → N_struct ∈ bound g → N_zlib ∈ bound g →
  Image_resize_lanczos icon (32, 32) = Ok resized →
  Image_alpha_composite (Image_new_RGBA (Image_size resized) (0, 0, 0, 255))
                        resized = Ok flat →
  let data := pixel_buffer565 (Image_load flat) in
  let zdata := zlib_stream 9 10 data in
  convert_icon g icon = Ok (slice_strip 2 4 zdata)
  ∧ length data = 2048%nat
  ∧ (∀ i, 0 ≤ i < 32 * 32 →
       take 2 (drop (Z.to_nat (2 * i)) data)
       = big_endian16 (quantize565 (Image_load flat (i mod 32) (i / 32))))
  ∧ (∀ hd body tl, zdata = hd ++ body ++ tl →
       length hd = 2%nat → length tl = 4%nat →
       convert_icon g icon = Ok body).
Proof.
  intros HI HS HZ Hres Hflat data zdata.
  assert (E : convert_icon g icon = Ok (slice_strip 2 4 zdata)).
  { unfold convert_icon, need, DIM.
    rewrite (bool_decide_eq_true_2 _ HI), (bool_decide_eq_true_2 _ HS),
      (bool_decide_eq_true_2 _ HZ).
    rewrite result_bind_ok, Hres, result_bind_ok, Hflat, !result_bind_ok.
    by rewrite pack_pixels_buffer, !result_bind_ok. }
  split_and!.
  - exact E.
  - apply pixel_buffer565_length.
  - intros i Hi. subst data. unfold pixel_buffer565.
    replace (Z.to_nat (2 * i)) with (2 * Z.to_nat i)%nat by lia.
    by apply (chunk_at
                (λ i, big_endian16 (quantize565 (Image_load flat (i mod 32) (i / 32))))
                2).
  - intros hd body tl Hz Hhd Htl. rewrite E, Hz.
    by rewrite slice_strip_header_checksum.
Qed.

Lemma convert_icon_is_stripped_deflate_of_rgb565_witness :
  let g := module_init Sample.everything in
  let icon : @image Sample.lib := (x10, x20, x30, xff) in
  let data := pixel_buffer565 (@Image_load Sample.lib icon) in
  @convert_icon Sample.lib g icon
  = Ok (slice_strip 2 4 (@zlib_stream Sample.lib 9 10 data))
  ∧ length data = 2048%nat
  ∧ take 2 data = ["017"; "006"]%byte.
Proof.
  intros g icon data.
  destruct (@convert_icon_is_stripped_deflate_of_rgb565 Sample.lib g
              icon icon icon) as (W1 & W2 & W3 & _).
  - by_compute.
  - by_compute.
  - by_compute.
  - reflexivity.
  - reflexivity.
  - split; [exact W1|]. split; [exact W2|]. exact (W3 0 ltac:(lia)).
Defined.

(** * Further properties of the code *)

#[local] Set Warnings "-clear-no-such-hyp".

(** Refute a membership in a list of distinct constructors. *)
Ltac by_contra H :=
  exfalso; revert H; apply (bool_decide_unpack _); vm_compute; exact I.

(** ** Module globals and the build libraries *)

Lemma bound_CoinDef (i : Installed) :
  N_CoinDef ∈ bound (module_init i) ↔ CAN_BUILD_DEFS (module_init i) = true.
Proof.
  unfold module_init, build_imports. cbn [bound CAN_BUILD_DEFS].
  cbn [import_until_failure forallb].
  destruct (inst_build i N_binascii); [|split; [intros Hn; by apply elem_of_nil in Hn | done]].
  destruct (inst_build i N_struct); [|split; [intros Hn; by_contra Hn | done]].
  destruct (inst_build i N_zlib); [|split; [intros Hn; by_contra Hn | done]].
  destruct (inst_build i N_sha256); [|split; [intros Hn; by_contra Hn | done]].
  destruct (inst_build i N_ed25519); [|split; [intros Hn; by_contra Hn | done]].
  destruct (inst_build i N_Image); [|split; [intros Hn; by_contra Hn | done]].
  destruct (inst_build i N_protobuf); [|split; [intros Hn; by_contra Hn | done]].
  destruct (inst_build i N_CoinDef); [|split; [intros Hn; by_contra Hn | done]].
  split; [done|]. intros _. by_compute.
Qed.

Lemma import_until_failure_all ok ns :
  forallb ok ns = true → import_until_failure ok ns = ns.
Proof.
  induction ns as [|n ns IH]; [done|]. cbn [forallb import_until_failure].
  intros E. apply andb_true_iff in E as [E1 E2]. by rewrite E1, IH.
Qed.

Lemma import_until_failure_prefix ok ns :
  import_until_failure ok ns `prefix_of` ns.
Proof.
  induction ns as [|n ns IH]; [done|]. cbn [import_until_failure].
  destruct (ok n); [by apply prefix_cons | apply prefix_nil].
Qed.

Lemma CoinDef_unbound_without_flag (i : Installed) :
  CAN_BUILD_DEFS (module_init i) = false →
  ∃ e, need (module_init i) N_CoinDef = Raise e.
Proof.
  intros E. unfold need. rewrite bool_decide_eq_false_2; [by eexists|].
  intros Hn. apply bound_CoinDef in Hn. congruence.
Qed.

(** X1. What the third [try] block leaves behind: the bound names are a
    leading part of the import list; [CAN_BUILD_DEFS] is [True] exactly when
    every name is bound, and then no name lookup fails; when it is [False],
    [CoinDef], the last import, is unbound. *)
Theorem module_init_flag_and_names (i : Installed) :
  let g := module_init i in
  bound g `prefix_of` build_imports
  ∧ (CAN_BUILD_DEFS g = true ↔ ∀ n, n ∈ bound g)
  ∧ (CAN_BUILD_DEFS g = true → ∀ n, need g n = Ok ())
  ∧ (CAN_BUILD_DEFS g = false → need g N_CoinDef = Raise (NameError "CoinDef")).
Proof.
  intros g. subst g.
  assert (Hall : CAN_BUILD_DEFS (module_init i) = true →
                 ∀ n, n ∈ bound (module_init i)).
  { intros E n. unfold module_init in *. cbn [bound CAN_BUILD_DEFS] in *.
    rewrite import_until_failure_all by done. by destruct n; by_compute. }
  split_and!.
  - apply import_until_failure_prefix.
  - split; [exact Hall|]. intros E. by apply bound_CoinDef.
  - intros E n. unfold need. by rewrite (bool_decide_eq_true_2 _ (Hall E n)).
  - intros E. unfold need.
    rewrite bool_decide_eq_false_2; [done|].
    intros Hn. apply bound_CoinDef in Hn. congruence.
Qed.

Section BuildLibraryFacts.
Context `{Library}.
Variable g : Globals.

(** Without [CoinDef] no coin gets a definition. *)
Lemma coin_definition_needs_CoinDef coin e :
  need g N_CoinDef = Raise e → is_raise (coin_definition g coin) = true.
Proof.
  intros E. unfold coin_definition.
  destruct (need g N_Image) as [[]|?]; [|done]. rewrite result_bind_ok.
  destruct (coin_getitem coin "icon") as [path|?]; [|done].
  rewrite result_bind_ok.
  destruct (Image_open path) as [img|?]; [|done]. rewrite result_bind_ok.
  by rewrite E.
Qed.

(** What a successful run of the loop body computed. *)
Lemma coin_definition_ok coin d :
  coin_definition g coin = Ok d →
  ∃ sig ser, sign g ser = Ok sig ∧ d = hexlify (sig ++ ser).
Proof.
  unfold coin_definition. intros Hdef.
  destruct (need g N_Image) as [[]|?]; [|done]. rewrite result_bind_ok in Hdef.
  destruct (coin_getitem coin "icon") as [path|?]; [|done].
  rewrite result_bind_ok in Hdef.
  destruct (Image_open path) as [img|?]; [|done]. rewrite result_bind_ok in Hdef.
  destruct (need g N_CoinDef) as [[]|?]; [|done]. rewrite result_bind_ok in Hdef.
  destruct (coerced_attributes g coin CoinDef_FIELDS CoinDef_new) as [attrs|?];
    [|done].
  rewrite result_bind_ok in Hdef.
  destruct (convert_icon g img) as [icon|?]; [|done].
  rewrite result_bind_ok in Hdef.
  destruct (need g N_protobuf) as [[]|?]; [|done]. rewrite result_bind_ok in Hdef.
  destruct (dump_message (<["icon" := VBytes icon]> attrs)) as [ser|?]; [|done].
  rewrite result_bind_ok in Hdef.
  destruct (sign g ser) as [sig|?] eqn:Esign; [|done].
  rewrite result_bind_ok in Hdef.
  destruct (need g N_binascii) as [[]|?]; [|done].
  rewrite result_bind_ok in Hdef. injection Hdef as <-. eauto.
Qed.

End BuildLibraryFacts.

(** X2. When an import of the build block failed ([CAN_BUILD_DEFS] is
    [False]) and the registry has a bitcoin-like coin, [coindefs] ends with an
    uncaught exception at the first coin and writes no definition. *)
Theorem coindefs_fails_without_build_libraries `{Library}
    (i : Installed) (defs : Defs) (h : heap) :
  CAN_BUILD_DEFS (module_init i) = false →
  defs_coins defs ≠ [] →
  ∃ e, (coindefs (module_init i) defs h).1 = Uncaught e
       ∧ ∀ key, processed (coindefs (module_init i) defs h).1 key = false.
Proof.
  intros Hflag Hcoins.
  destruct (defs_coins defs) as [|coin post] eqn:Ec; [done|].
  destruct (CoinDef_unbound_without_flag i Hflag) as [e0 He0].
  pose proof (coin_definition_needs_CoinDef (module_init i) coin e0 He0) as Hr.
  destruct (coin_definition (module_init i) coin) as [d|e] eqn:Ed; [done|].
  exists e.
  assert (E : (coindefs (module_init i) defs h).1 = Uncaught e).
  { rewrite coindefs_run, Ec.
    rewrite (coindefs_loop_first_failure (module_init i) [] coin post ∅ e);
      [done| |done].
    intros p Hp. by apply elem_of_nil in Hp. }
  split; [exact E|]. intros key. by rewrite E.
Qed.

Lemma coindefs_fails_without_build_libraries_witness :
  ∃ e, (@coindefs Sample.lib (module_init Sample.no_ed25519)
          (Sample.registry [Sample.bitcoin]) []).1 = Uncaught e
       ∧ ∀ key, processed (@coindefs Sample.lib (module_init Sample.no_ed25519)
                             (Sample.registry [Sample.bitcoin]) []).1 key = false.
Proof.
  apply (@coindefs_fails_without_build_libraries Sample.lib
           Sample.no_ed25519 (Sample.registry [Sample.bitcoin]) []).
  - vm_compute. reflexivity.
  - discriminate.
Defined.

(** ** Hexadecimal text *)

Lemma hex_pair_decodes b :
  hex_value (hex_digit (byte_val b / 16)) = Some (byte_val b / 16)
  ∧ hex_value (hex_digit (byte_val b mod 16)) = Some (byte_val b mod 16)
  ∧ byte_of_Z (16 * (byte_val b / 16) + byte_val b mod 16) = b.
Proof. destruct b; repeat split; reflexivity. Qed.

Lemma hex_digit_is_ascii n :
  (Z.of_N (N_of_ascii (hex_digit n)) <? 128) = true.
Proof. unfold hex_digit. by repeat case_match. Qed.

Lemma unhex_pairs_hexlify bs : unhex_pairs (hexlify bs) = Some bs.
Proof.
  induction bs as [|b bs IH]; [done|]. cbn [hexlify unhex_pairs].
  destruct (hex_pair_decodes b) as (-> & -> & ->). by rewrite IH.
Qed.

Lemma is_ascii_text_hexlify bs : is_ascii_text (hexlify bs) = true.
Proof.
  unfold is_ascii_text. induction bs as [|b bs IH]; [done|].
  cbn [hexlify list_ascii_of_string forallb].
  by rewrite !hex_digit_is_ascii, IH.
Qed.

(** [binascii.unhexlify] undoes [binascii.hexlify]. *)
Lemma unhexlify_hexlify bs : unhexlify (VStr (hexlify bs)) = Ok bs.
Proof.
  unfold unhexlify. by rewrite is_ascii_text_hexlify, unhex_pairs_hexlify.
Qed.

(** An odd number of characters is never a hexadecimal text. *)
Lemma unhex_pairs_odd s :
  Nat.Odd (String.length s) → unhex_pairs s = None.
Proof.
  revert s. fix IH 1. intros [|c1 [|c2 s]] Hodd.
  - destruct Hodd as [k Hk]. simpl in Hk. lia.
  - done.
  - cbn [unhex_pairs]. rewrite (IH s).
    + by destruct (hex_value c1), (hex_value c2).
    + destruct Hodd as [k Hk]. cbn [String.length] in Hk.
      exists (k - 1)%nat. lia.
Qed.

(** X3. Every definition [coindefs] writes is hexadecimal text that
    [binascii.unhexlify] turns back into the signature bytes followed by the
    payload bytes; it is twice as long as they are. *)
Theorem coindefs_definitions_decode `{Library}
    (g : Globals) (defs : Defs) (h : heap)
    (out : gmap string string) (key definition : string) :
  (coindefs g defs h).1 = Done out →
  out !! key = Some definition →
  ∃ sig ser,
    sign g ser = Ok sig
    ∧ unhexlify (VStr definition) = Ok (sig ++ ser)
    ∧ String.length definition = (2 * (length sig + length ser))%nat.
Proof.
  intros Hrun Hd. rewrite coindefs_run in Hrun.
  destruct (for_result _ (defs_coins defs) ∅) as [out'|e] eqn:Eloop; [|done].
  injection Hrun as ->.
  destruct (coindefs_loop_entries g _ _ _ _ _ Eloop Hd)
    as [Hempty | (coin & _ & _ & Hdef)].
  { by rewrite lookup_empty in Hempty. }
  destruct (coin_definition_ok g coin definition Hdef) as (sig & ser & Hs & ->).
  exists sig, ser. split_and!; [done| |].
  - apply unhexlify_hexlify.
  - by rewrite hexlify_length, length_app.
Qed.

Lemma coindefs_definitions_decode_witness :
  ∃ (out : gmap string string) (definition : string),
    (@coindefs Sample.lib (module_init Sample.everything)
       (Sample.registry [Sample.bitcoin]) []).1 = Done out
    ∧ out !! "bitcoin:BTC" = Some definition
    ∧ ∃ sig ser,
        unhexlify (VStr definition) = Ok (sig ++ ser)
        ∧ String.length definition = (2 * (length sig + length ser))%nat.
Proof.
  pose (run := (@coindefs Sample.lib (module_init Sample.everything)
                  (Sample.registry [Sample.bitcoin]) []).1).
  pose (out := match run with Done o => o | _ => ∅ end).
  pose (definition := default "" (out !! "bitcoin:BTC")).
  exists out, definition.
  assert (E1 : run = Done out) by (vm_compute; reflexivity).
  assert (E2 : out !! "bitcoin:BTC" = Some definition)
    by (vm_compute; reflexivity).
  split; [exact E1|]. split; [exact E2|].
  destruct (@coindefs_definitions_decode Sample.lib
              (module_init Sample.everything)
              (Sample.registry [Sample.bitcoin]) [] out "bitcoin:BTC"
              definition E1 E2) as (sig & ser & _ & Hd & Hl).
  exists sig, ser. split; [exact Hd | exact Hl].
Defined.

(** X4. The two coerced fields on values that are present (with [binascii]
    bound): a genesis hash given as the hex text of some bytes is stored as
    those bytes; an ASCII text with an odd number of characters raises
    [binascii.Error], a text that is not ASCII raises [ValueError], a number
    raises [TypeError]. A signing header that is a [str] is stored as its
    bytes; one that is a number raises [AttributeError]. *)
Theorem coerce_field_present_values `{Library} (g : Globals) (fflags : Z) :
  N_binascii ∈ bound g →
  (∀ bs, coerce_field g "hash_genesis_block" fflags (VStr (hexlify bs))
         = Ok (VBytes bs))
  ∧ (∀ s, is_ascii_text s = true → Nat.Odd (String.length s) →
          coerce_field g "hash_genesis_block" fflags (VStr s)
          = Raise BinasciiError)
  ∧ (∀ s, is_ascii_text s = false →
          coerce_field g "hash_genesis_block" fflags (VStr s)
          = Raise ValueError)
  ∧ (∀ n, coerce_field g "hash_genesis_block" fflags (VInt n)
          = Raise TypeError)
  ∧ (∀ s, coerce_field g "signed_message_header" fflags (VStr s)
          = Ok (VBytes (bytes_of_string s)))
  ∧ (∀ n, coerce_field g "signed_message_header" fflags (VInt n)
          = Raise AttributeError).
Proof.
  intros Hb.
  assert (Hneed : need g N_binascii = Ok ())
    by (unfold need; by rewrite (bool_decide_eq_true_2 _ Hb)).
  split_and!.
  - intros bs. unfold coerce_field. cbn. rewrite Hneed. cbn.
    by rewrite is_ascii_text_hexlify, unhex_pairs_hexlify.
  - intros s Ha Hodd. unfold coerce_field. cbn. rewrite Hneed. cbn.
    by rewrite Ha, (unhex_pairs_odd s Hodd).
  - intros s Ha. unfold coerce_field. cbn. rewrite Hneed. cbn. by rewrite Ha.
  - intros n. unfold coerce_field. cbn. rewrite Hneed. done.
  - done.
  - done.
Qed.

Lemma coerce_field_present_values_witness :
  @coerce_field Sample.lib (module_init Sample.everything)
    "hash_genesis_block" 0 (VStr "00ff") = Ok (VBytes [x00; xff])
  ∧ @coerce_field Sample.lib (module_init Sample.everything)
      "hash_genesis_block" 0 (VStr "00f") = Raise BinasciiError.
Proof.
  destruct (@coerce_field_present_values Sample.lib
              (module_init Sample.everything) 0) as (W1 & W2 & _).
  - by_compute.
  - split; [exact (W1 [x00; xff])|]. apply W2; [reflexivity|].
    exists 1%nat. reflexivity.
Defined.

(** ** Pixels *)

Lemma byte_val_of_Z n : byte_val (byte_of_Z n) = n mod 256.
Proof.
  unfold byte_val, byte_of_Z.
  assert (0 ≤ n mod 256 < 256) by (apply Z.mod_pos_bound; lia).
  destruct (Byte.of_N (Z.to_N (n mod 256))) as [b|] eqn:E.
  - apply Byte.to_of_N in E. rewrite E. lia.
  - apply Byte.of_N_None_iff in E. lia.
Qed.

(** X5. The 16-bit word of a pixel holds the top five bits of red, the top six
    of green and the top five of blue, from the most significant bit down;
    alpha plays no part. Each channel is recovered from the word up to its
    dropped low bits (at most 7, 3 and 7), and [struct.pack] writes the word
    as two bytes, most significant first. *)
Theorem rgb565_fields (r g b a : byte) :
  let c := rgb565 (r, g, b, a) in
  0 ≤ c < 65536
  ∧ c / 2048 = byte_val r / 8
  ∧ (c / 32) mod 64 = byte_val g / 4
  ∧ c mod 32 = byte_val b / 8
  ∧ 0 ≤ byte_val r - 8 * (c / 2048) ≤ 7
  ∧ 0 ≤ byte_val g - 4 * ((c / 32) mod 64) ≤ 3
  ∧ 0 ≤ byte_val b - 8 * (c mod 32) ≤ 7
  ∧ ∃ hi lo, struct_pack_H c = Ok [hi; lo]
             ∧ 256 * byte_val hi + byte_val lo = c.
Proof.
  intros c. subst c. rewrite rgb565_quantize.
  pose proof (quantize565_range (r, g, b, a)) as Hrange.
  pose proof (struct_pack_pixel (r, g, b, a)) as Hpack.
  rewrite rgb565_quantize in Hpack. unfold quantize565 in *.
  pose proof (byte_val_range r). pose proof (byte_val_range g).
  pose proof (byte_val_range b).
  set (R := byte_val r / 8) in *. set (G := byte_val g / 4) in *.
  set (B := byte_val b / 8) in *.
  assert (HR : 0 ≤ byte_val r - 8 * R ≤ 7).
  { subst R. pose proof (Z.div_mod (byte_val r) 8 ltac:(lia)).
    pose proof (Z.mod_pos_bound (byte_val r) 8 ltac:(lia)). lia. }
  assert (HG : 0 ≤ byte_val g - 4 * G ≤ 3).
  { subst G. pose proof (Z.div_mod (byte_val g) 4 ltac:(lia)).
    pose proof (Z.mod_pos_bound (byte_val g) 4 ltac:(lia)). lia. }
  assert (HB : 0 ≤ byte_val b - 8 * B ≤ 7).
  { subst B. pose proof (Z.div_mod (byte_val b) 8 ltac:(lia)).
    pose proof (Z.mod_pos_bound (byte_val b) 8 ltac:(lia)). lia. }
  assert (E1 : (R * 2048 + G * 32 + B) / 2048 = R)
    by (symmetry; apply (Z.div_unique _ _ R (G * 32 + B)); lia).
  assert (E2 : (R * 2048 + G * 32 + B) / 32 = R * 64 + G)
    by (symmetry; apply (Z.div_unique _ _ (R * 64 + G) B); lia).
  assert (E3 : (R * 2048 + G * 32 + B) mod 32 = B)
    by (symmetry; apply (Z.mod_unique _ _ (R * 64 + G) B); lia).
  assert (E4 : (R * 64 + G) mod 64 = G)
    by (symmetry; apply (Z.mod_unique _ _ R G); lia).
  rewrite E1, E2, E3, E4. split_and!; try lia.
  eexists _, _. split; [exact Hpack|].
  rewrite !byte_val_of_Z.
  set (c := R * 2048 + G * 32 + B) in *.
  pose proof (Z.mod_pos_bound c 256 ltac:(lia)).
  rewrite (Z.mod_small (c mod 256)) by lia.
  rewrite (Z.mod_small (c / 256)).
  - pose proof (Z.div_mod c 256 ltac:(lia)). lia.
  - split; [apply Z.div_pos; lia | apply Z.div_lt_upper_bound; lia].
Qed.

(** ** The mapping [coindefs] builds *)

Section MappingFacts.
Context `{Library}.
Variable g : Globals.

Lemma coindefs_loop_all_ok coins (acc : gmap string string) :
  (∀ c, c ∈ coins → is_raise (coin_definition g c) = false) →
  ∃ out : gmap string string,
    for_result (λ acc coin, (λ d, <[ckey coin := d]> acc)
                              <$> coin_definition g coin) coins acc = Ok out
    ∧ dom out = dom acc ∪ list_to_set (ckey <$> coins)
    ∧ (∀ key, key ∉ ckey <$> coins → out !! key = acc !! key)
    ∧ (∀ pre c post d,
         coins = pre ++ c :: post →
         (∀ q, q ∈ post → ckey q ≠ ckey c) →
         coin_definition g c = Ok d →
         out !! ckey c = Some d).
Proof.
  revert acc. induction coins as [|c0 rest IH]; intros acc Hall.
  - exists acc. split_and!; [done|set_solver|done|].
    intros [|? ?] ? ? ? E; discriminate E.
  - assert (H0 : is_raise (coin_definition g c0) = false) by (apply Hall; left).
    destruct (coin_definition g c0) as [d0|?] eqn:E0; [|done].
    destruct (IH (<[ckey c0 := d0]> acc)) as (out & Hrun & Hdom & Hother & Hlast).
    { intros c Hc. apply Hall. by right. }
    exists out. split_and!.
    + cbn [for_result]. rewrite E0. exact Hrun.
    + rewrite Hdom, dom_insert_L, fmap_cons, list_to_set_cons. set_solver.
    + intros key Hk. rewrite fmap_cons in Hk.
      apply not_elem_of_cons in Hk as [Hne Hk].
      rewrite (Hother key Hk). by rewrite lookup_insert_ne.
    + intros pre c post d Ecoins Hpost Hd. destruct pre as [|p pre].
      * injection Ecoins as <- <-. rewrite Hother.
        -- rewrite lookup_insert_eq. congruence.
        -- intros Hin. apply list_elem_of_fmap in Hin as (q & Hq & Hqin).
           by apply (Hpost q Hqin).
      * injection Ecoins as <- ->. by apply (Hlast pre c post d).
Qed.

End MappingFacts.

(** X6. When the steps of every coin go through, [coindefs] ends normally;
    the mapping it writes has exactly the keys of the registry's coins, and
    where several coins share a key it holds the definition of the last. *)
Theorem coindefs_writes_one_definition_per_key `{Library}
    (g : Globals) (defs : Defs) (h : heap) :
  (∀ c, c ∈ defs_coins defs → is_raise (coin_definition g c) = false) →
  ∃ out : gmap string string,
    (coindefs g defs h).1 = Done out
    ∧ dom out = list_to_set (ckey <$> defs_coins defs)
    ∧ (∀ pre c post d,
         defs_coins defs = pre ++ c :: post →
         (∀ q, q ∈ post → ckey q ≠ ckey c) →
         coin_definition g c = Ok d →
         out !! ckey c = Some d).
Proof.
  intros Hall.
  destruct (coindefs_loop_all_ok g (defs_coins defs) ∅ Hall)
    as (out & Hrun & Hdom & _ & Hlast).
  exists out. split_and!.
  - by rewrite coindefs_run, Hrun.
  - rewrite Hdom, dom_empty_L. set_solver.
  - exact Hlast.
Qed.

Lemma coindefs_writes_one_definition_per_key_witness :
  ∃ out : gmap string string,
    (@coindefs Sample.lib (module_init Sample.everything)
       (Sample.registry [Sample.bitcoin; Sample.testnet]) []).1 = Done out
    ∧ dom out = {[ "bitcoin:BTC"; "bitcoin:TEST" ]}.
Proof.
  destruct (@coindefs_writes_one_definition_per_key Sample.lib
              (module_init Sample.everything)
              (Sample.registry [Sample.bitcoin; Sample.testnet]) [])
    as (out & W1 & W2 & _).
  - intros c Hc. apply elem_of_cons in Hc as [-> | Hc];
      [vm_compute; reflexivity|].
    apply list_elem_of_singleton in Hc. subst c. vm_compute. reflexivity.
  - exists out. split; [exact W1|]. rewrite W2. by_compute.
Defined.

(** ** The encoder and the store *)

Section StoreFacts.
Context `{Library}.
Variable g : Globals.

(** The store after [coindef_from_dict]: the old one, or the old one and one
    new object. *)
Lemma coindef_from_dict_store coin (h : heap) :
  (coindef_from_dict g coin h = (Raise (NameError "CoinDef"), h)
   ∧ need g N_CoinDef = Raise (NameError "CoinDef"))
  ∨ ∃ o r, coindef_from_dict g coin h = (r, h ++ [o])
           ∧ ∀ ref, r = Ok ref → ref = length h.
Proof.
  unfold coindef_from_dict. rewrite bind_run, lift_run. unfold need.
  destruct (bool_decide (N_CoinDef ∈ bound g)).
  - right. rewrite bind_run. unfold new_object.
    destruct (from_dict_loop g coin CoinDef_FIELDS h CoinDef_new) as (o' & E & _).
    rewrite E. eexists _, _. split; [done|].
    intros ref Hr.
    destruct (coerced_attributes g coin CoinDef_FIELDS CoinDef_new);
      [by injection Hr | discriminate Hr].
  - by left.
Qed.

End StoreFacts.

(** X7. The encoder leaves every object that was in the store as it was: the
    store after a run is the store before it, followed by at most one new
    object, whether the run returns or raises. *)
Theorem definition_encoder_keeps_existing_objects `{Library}
    (g : Globals) (coin : Coin) (icon : list byte) (h : heap) :
  ∃ new : heap,
    (definition_encoder g coin icon h).2 = h ++ new
    ∧ (length new ≤ 1)%nat
    ∧ ∀ (ref : nat) (o : object),
        h !! ref = Some o → (definition_encoder g coin icon h).2 !! ref = Some o.
Proof.
  assert (Hstore : ∃ new : heap,
            (definition_encoder g coin icon h).2 = h ++ new
            ∧ (length new ≤ 1)%nat).
  { unfold definition_encoder. rewrite bind_run.
    destruct (coindef_from_dict_store g coin h)
      as [[E _] | (o & r & E & Href)]; rewrite E.
    - exists []. split; [by rewrite app_nil_r | simpl; lia].
    - destruct r as [ref|e].
      + rewrite (Href ref eq_refl), serialize_newest.
        exists [<["icon" := VBytes icon]> o]. split; [done | simpl; lia].
      + exists [o]. split; [done | simpl; lia]. }
  destruct Hstore as (new & E & Hlen). exists new.
  split; [done|]. split; [done|].
  intros ref o Ho. rewrite E. by apply lookup_app_l_Some.
Qed.

(** ** The record's own icon entry *)

(** Two objects with the same attributes, [icon] apart. *)
Definition agree_off_icon (o1 o2 : object) : Prop :=
  ∀ k, k ≠ "icon" → o1 !! k = o2 !! k.

Section IconFacts.
Context `{Library}.
Variable g : Globals.
Hypothesis Hprotobuf : N_protobuf ∈ bound g.

(** A field named [icon] is copied without a method call: it never raises. *)
Lemma coerce_icon_ok fflags v : ∃ v', coerce_field g "icon" fflags v = Ok v'.
Proof.
  unfold coerce_field, need. rewrite (bool_decide_eq_true_2 _ Hprotobuf).
  destruct v; cbn; eauto.
  destruct (Z.land fflags FLAG_REPEATED =? 0); cbn; eauto.
Qed.

Lemma coerced_attributes_off_icon c1 c2 fields (o1 o2 : object) :
  (∀ k, k ≠ "icon" → coin_get c1 k = coin_get c2 k) →
  agree_off_icon o1 o2 →
  match coerced_attributes g c1 fields o1, coerced_attributes g c2 fields o2 with
  | Ok a, Ok b => agree_off_icon a b
  | Raise e1, Raise e2 => e1 = e2
  | _, _ => False
  end.
Proof.
  intros Hget. unfold coerced_attributes. revert o1 o2.
  induction fields as [|[tag [[fname ty] fflags]] fields IH]; intros o1 o2 Ho.
  - exact Ho.
  - cbn [for_result]. destruct (decide (fname = "icon")) as [->|Hne].
    + destruct (coerce_icon_ok fflags (coin_get c1 "icon")) as [v1 ->].
      destruct (coerce_icon_ok fflags (coin_get c2 "icon")) as [v2 ->].
      rewrite !result_bind_ok. unfold mret, result_ret; cbv beta.
      apply IH. intros k Hk. rewrite !lookup_insert_ne by done. by apply Ho.
    + rewrite (Hget fname Hne).
      destruct (coerce_field g fname fflags (coin_get c2 fname)) as [val|e].
      * rewrite !result_bind_ok. unfold mret, result_ret; cbv beta.
        apply IH. intros k Hk. rewrite !lookup_insert.
        case_decide; [done | by apply Ho].
      * by rewrite !result_bind_raise.
Qed.

End IconFacts.

(** X8. The icon entry of the record never reaches the payload: with
    [protobuf] bound, two records that agree on every entry but ["icon"] give
    the same payload (or the same exception) for the same converted icon. *)
Theorem payload_ignores_icon_entry `{Library}
    (g : Globals) (c1 c2 : Coin) (icon : list byte) (h1 h2 : heap) :
  N_protobuf ∈ bound g →
  (∀ k, k ≠ "icon" → coin_get c1 k = coin_get c2 k) →
  (definition_encoder g c1 icon h1).1 = (definition_encoder g c2 icon h2).1.
Proof.
  intros Hp Hget. rewrite !definition_encoder_run. unfold payload_of.
  destruct (need g N_CoinDef) as [[]|e]; [|done]. rewrite !result_bind_ok.
  pose proof (coerced_attributes_off_icon g Hp c1 c2 CoinDef_FIELDS
                CoinDef_new CoinDef_new Hget (λ k _, eq_refl)) as Hagree.
  destruct (coerced_attributes g c1 CoinDef_FIELDS CoinDef_new) as [a|e1],
           (coerced_attributes g c2 CoinDef_FIELDS CoinDef_new) as [b|e2];
    try done.
  - rewrite !result_bind_ok.
    assert (E : <["icon" := VBytes icon]> a = <["icon" := VBytes icon]> b).
    { apply map_eq. intros k. rewrite !lookup_insert.
      case_decide; [done | by apply Hagree]. }
    by rewrite E.
  - by rewrite Hagree.
Qed.

Lemma payload_ignores_icon_entry_witness :
  let moved :=
    {| ckey := ckey Sample.bitcoin; cname := cname Sample.bitcoin;
       crest := <["icon" := VStr "white.png"]> (crest Sample.bitcoin) |} in
  (@definition_encoder Sample.lib (module_init Sample.everything)
     Sample.bitcoin [x01; x02] []).1
  = (@definition_encoder Sample.lib (module_init Sample.everything)
       moved [x01; x02] []).1.
Proof.
  intros moved.
  apply (@payload_ignores_icon_entry Sample.lib (module_init Sample.everything)
           Sample.bitcoin moved [x01; x02] [] []).
  - by_compute.
  - intros k Hk. unfold coin_get, coin_items, moved. cbn [ckey cname crest].
    rewrite !lookup_insert. repeat case_decide; try done.
Defined.

(** ** More on the support validator *)

Lemma coin_names_dom_from (coins : list Coin) (m : gmap string string) :
  dom (foldl (λ m coin, <[ckey coin := cname coin]> m) m coins)
  = dom m ∪ list_to_set (ckey <$> coins).
Proof.
  revert m. induction coins as [|c coins IH]; intros m; simpl.
  - set_solver.
  - rewrite IH, dom_insert_L. set_solver.
Qed.

(** A key has a name exactly when some coin of the registry has that key. *)
Lemma coin_names_known defs key :
  is_Some (coin_names defs !! key) ↔ key ∈ coin_set defs.
Proof.
  rewrite <- elem_of_dom. unfold coin_names, coin_set.
  rewrite coin_names_dom_from, dom_empty_L. set_solver.
Qed.

Lemma coin_name_unknown defs key :
  key ∉ coin_set defs →
  coin_name (coin_names defs) key = key +:+ " <unknown key>".
Proof.
  intros Hk. unfold coin_name.
  destruct (coin_names defs !! key) as [n|] eqn:E; [|done].
  exfalso. apply Hk, coin_names_known. by exists n.
Qed.

(** X9. A support entry that [validate_support] rejects is a hard error:
    [check_support] returns [False] and prints
    "ERR: invalid definition for <coin>" followed by the errors, one per
    line; for a key of no coin of the registry the coin is shown as
    "<key> <unknown key>". *)
Theorem invalid_support_entry_is_hard_error `{Library}
    (defs : Defs) (support_data : list (string * gmap string pyval))
    (fail_missing : bool) (key : string) (support : gmap string pyval) :
  (key, support) ∈ support_data →
  validate_support support ≠ [] →
  let run := check_support defs support_data fail_missing in
  run.1 = false
  ∧ (ERR, "invalid definition for " +:+ coin_name (coin_names defs) key) ∈ run.2
  ∧ (OUT, String.concat nl (validate_support support)) ∈ run.2
  ∧ (key ∉ coin_set defs →
     (ERR, "invalid definition for " +:+ key +:+ " <unknown key>") ∈ run.2).
Proof.
  intros Hin Hbad run. subst run. rewrite check_support_eq. cbn [fst snd].
  assert (Hmsgs : shape_msgs (coin_names defs) (key, support)
                  = [(ERR, "invalid definition for "
                             +:+ coin_name (coin_names defs) key);
                     (OUT, String.concat nl (validate_support support))]).
  { unfold shape_msgs. cbn [fst snd]. by destruct (validate_support support). }
  assert (Hsub : ∀ m, m ∈ shape_msgs (coin_names defs) (key, support) →
                 m ∈ (support_data ≫= shape_msgs (coin_names defs))
                     ++ (elements (expected_coins defs)
                           ≫= missing_msgs (coin_names defs) support_data
                                fail_missing)
                     ++ (support_data.*1 ≫= unknown_msgs defs)).
  { intros m Hm. apply elem_of_app. left. apply list_elem_of_bind. eauto. }
  rewrite Hmsgs in Hsub. split_and!.
  - apply andb_false_iff. left. apply andb_false_iff. left.
    apply (forallb_false_at _ _ (key, support) Hin). unfold shape_ok.
    cbn [snd]. by destruct (validate_support support).
  - apply Hsub. left.
  - apply Hsub. right. left.
  - intros Hk. rewrite <- (coin_name_unknown defs key Hk). apply Hsub. left.
Qed.

Lemma invalid_support_entry_is_hard_error_witness :
  let run := @check_support Sample.lib (Sample.registry [Sample.bitcoin])
               [("bitcoin:BTC", Sample.supported); ("bitcoin:OLD", ∅)] false in
  run.1 = false
  ∧ (ERR, "invalid definition for bitcoin:OLD <unknown key>") ∈ run.2
  ∧ (OUT, "trezor1 is missing") ∈ run.2.
Proof.
  intros run.
  destruct (@invalid_support_entry_is_hard_error Sample.lib
              (Sample.registry [Sample.bitcoin])
              [("bitcoin:BTC", Sample.supported); ("bitcoin:OLD", ∅)] false
              "bitcoin:OLD" ∅) as (W1 & _ & W3 & W4).
  - right. left.
  - discriminate.
  - split; [exact W1|]. split; [|exact W3]. apply W4.
    apply (bool_decide_unpack _). vm_compute. exact I.
Defined.

(** X10. The verdict of [check_support], in full: it is [True] exactly when
    [validate_support] accepts every entry, every expected key has an entry
    (asked for only with [fail_missing]) and every key with an entry is the
    key of a coin of the registry; it is [False] exactly when an error-level
    line was printed. *)
Theorem check_support_verdict `{Library}
    (defs : Defs) (support_data : list (string * gmap string pyval))
    (fail_missing : bool) :
  let run := check_support defs support_data fail_missing in
  (run.1 = true
   ↔ (∀ item, item ∈ support_data → validate_support item.2 = [])
     ∧ (fail_missing = true →
        ∀ coin, coin ∈ expected_coins defs → coin ∈ support_data.*1)
     ∧ (∀ key, key ∈ support_data.*1 → key ∈ coin_set defs))
  ∧ (run.1 = false ↔ ∃ m, m ∈ run.2 ∧ m.1 = ERR).
Proof.
  intros run. subst run. split.
  - apply check_support_passes.
  - rewrite <- has_err_true, check_support_err.
    by destruct (check_support defs support_data fail_missing).1.
Qed.

(** ** More on the coin validator *)

Lemma errors_of_none (out : list msg) :
  (∀ m, m ∈ out → m.1 ≠ ERR) → errors_of out = [].
Proof.
  unfold errors_of. induction out as [|m out IH]; intros Hno; [done|].
  rewrite filter_cons_False by (apply Hno; left).
  apply IH. intros m' Hm'. apply Hno. by right.
Qed.

(** X11. [check_btc] prints one error line for each coin that
    [validate_btc] rejects, in registry order, and no other error line
    (the collision report adds none); it returns [True] exactly when there
    is no such coin. *)
Theorem check_btc_reports_each_invalid_coin `{Library} (coins : list Coin) :
  errors_of (check_btc coins).2
  = (λ coin, (ERR, "invalid definition for " +:+ cname coin))
      <$> filter (λ coin, validate_btc coin ≠ []) coins
  ∧ ((check_btc coins).1 = true
     ↔ filter (λ coin, validate_btc coin ≠ []) coins = []).
Proof.
  rewrite check_btc_eq. cbn [fst snd]. split.
  - unfold errors_of. rewrite filter_app.
    fold (errors_of (collision_lines (find_address_collisions coins))).
    rewrite (errors_of_none (collision_lines _)), app_nil_r.
    + induction coins as [|c coins IH]; [done|].
      rewrite bind_cons, filter_app, IH. unfold btc_msgs at 1.
      destruct (validate_btc c) as [|e es] eqn:E.
      * by rewrite filter_cons_False by (rewrite E; by intros ?).
      * rewrite (filter_cons_True (λ coin, validate_btc coin ≠ []))
          by (by rewrite E).
        done.
    + intros m Hm. apply collision_lines_level in Hm as [Hm | Hm]; congruence.
  - rewrite forallb_true_iff. unfold btc_ok. split.
    + intros Hall. induction coins as [|c coins IH]; [done|].
      rewrite filter_cons_False.
      * apply IH. intros x Hx. apply Hall. by right.
      * specialize (Hall c ltac:(left)). intros Hc. apply Hc.
        by destruct (validate_btc c).
    + intros Hnone c Hc.
      destruct (validate_btc c) as [|e es] eqn:E; [done|]. exfalso.
      assert (Hin : c ∈ filter (λ coin, validate_btc coin ≠ []) coins).
      { apply list_elem_of_filter. split; [by rewrite E | done]. }
      rewrite Hnone in Hin. by apply elem_of_nil in Hin.
Qed.

(** ** The backend probe *)

(** The backends of a coin when both lists are lists. *)
Definition backends_of (coin : Coin) : list pyval :=
  match coin_get_default coin "blockbook" (VList []),
        coin_get_default coin "bitcore" (VList []) with
  | VList a, VList b => a ++ b
  | _, _ => []
  end.

(** Both entries are lists, or absent. *)
Definition backends_listed (coin : Coin) : Prop :=
  ∃ a b, coin_get_default coin "blockbook" (VList []) = VList a
         ∧ coin_get_default coin "bitcore" (VList []) = VList b.

(** The probes of one coin, as (genesis block, backend): none without a
    genesis block. *)
Definition coin_probes (coin : Coin) : list (pyval * pyval) :=
  if truthy (coin_get coin "hash_genesis_block")
  then (λ backend, (coin_get coin "hash_genesis_block", backend))
         <$> backends_of coin
  else [].

(** Every probe of a run, in order. *)
Definition probes (coins : list Coin) : list (pyval * pyval) :=
  coins ≫= coin_probes.

Section BackendFacts.
Context `{Library}.
Variable g : Globals.

Definition probe_ok (p : pyval * pyval) : bool :=
  negb (is_raise (probe_backend g p.1 p.2)).

Definition probe_msgs (p : pyval * pyval) : list msg :=
  [(OUT, "checking " +:+ py_str p.2 +:+ " ... ");
   (OUT, match probe_backend g p.1 p.2 with
         | Raise e => exn_str e
         | Ok _ => "OK"
         end)].

Lemma backend_step_eq genesis st backend :
  backend_step g genesis st backend
  = step_of probe_ok probe_msgs st (genesis, backend).
Proof.
  destruct st as [b o]. unfold backend_step, step_of, probe_ok, probe_msgs.
  cbn [fst snd]. destruct (probe_backend g genesis backend); cbn [is_raise negb].
  - by rewrite andb_true_r, <- app_assoc.
  - by rewrite andb_false_r, <- app_assoc.
Qed.

Lemma foldl_backend_step genesis st backends :
  foldl (backend_step g genesis) st backends
  = foldl (step_of probe_ok probe_msgs) st ((λ b, (genesis, b)) <$> backends).
Proof.
  revert st. induction backends as [|b bs IH]; intros st; [done|].
  cbn [foldl fmap list_fmap]. by rewrite backend_step_eq, IH.
Qed.

Lemma backends_coin_step_listed st coin :
  (truthy (coin_get coin "hash_genesis_block") = true → backends_listed coin) →
  backends_coin_step g st coin
  = Ok (foldl (step_of probe_ok probe_msgs) st (coin_probes coin)).
Proof.
  intros Hl. unfold backends_coin_step, coin_probes.
  destruct (truthy (coin_get coin "hash_genesis_block")) eqn:Et; cbn [negb]; [|done].
  destruct (Hl eq_refl) as (a & b & Ea & Eb).
  unfold backends_of. rewrite Ea, Eb. cbn [py_add py_iter].
  rewrite result_bind_ok. cbn [py_iter]. rewrite result_bind_ok.
  by rewrite foldl_backend_step.
Qed.

Lemma check_backends_loop_listed coins st :
  (∀ coin, coin ∈ coins →
     truthy (coin_get coin "hash_genesis_block") = true → backends_listed coin) →
  check_backends_loop g coins st
  = (Ok (st.1 && forallb probe_ok (probes coins)),
     st.2 ++ (probes coins ≫= probe_msgs)).
Proof.
  unfold probes. revert st. induction coins as [|coin coins IH]; intros st Hl.
  - destruct st as [b o]. cbn. by rewrite andb_true_r, app_nil_r.
  - cbn [check_backends_loop].
    rewrite backends_coin_step_listed by (apply Hl; left).
    rewrite IH by (intros c Hc; apply Hl; by right).
    rewrite foldl_step_of. cbn [fst snd].
    rewrite bind_cons, forallb_app, bind_app.
    by rewrite andb_assoc, app_assoc.
Qed.

End BackendFacts.

(** X12. [check_backends] on a registry whose coins with a genesis block
    list their backends (["blockbook"] and ["bitcore"] are lists, or absent):
    it never raises; it probes every backend of every such coin, printing a
    "checking ..." line and a result for each, so a failing backend does not
    stop the probes after it; coins without a genesis block are passed over;
    and it returns [True] exactly when every probe went through. *)
Theorem check_backends_probes_every_backend `{Library}
    (g : Globals) (coins : list Coin) :
  (∀ coin, coin ∈ coins →
     truthy (coin_get coin "hash_genesis_block") = true → backends_listed coin) →
  ∃ ok out,
    check_backends g coins = (Ok ok, out)
    ∧ (ok = true ↔ ∀ p, p ∈ probes coins → probe_backend g p.1 p.2 = Ok ())
    ∧ length out = (2 * length (probes coins))%nat
    ∧ ∀ p, p ∈ probes coins →
           (OUT, "checking " +:+ py_str p.2 +:+ " ... ") ∈ out.
Proof.
  intros Hl. unfold check_backends.
  rewrite (check_backends_loop_listed g coins (true, []) Hl). cbn [fst snd].
  eexists _, _. split; [reflexivity|]. split_and!.
  - rewrite andb_true_l, forallb_true_iff. unfold probe_ok.
    split; intros Hp p Hin; specialize (Hp p Hin).
    + destruct (probe_backend g p.1 p.2) as [[]|e]; [done | discriminate Hp].
    + by rewrite Hp.
  - rewrite app_nil_l. by rewrite (length_bind_chunks _ 2).
  - intros p Hp. rewrite app_nil_l. apply list_elem_of_bind. exists p.
    split; [left | done].
Qed.

Lemma check_backends_probes_every_backend_witness :
  let coin :=
    {| ckey := "bitcoin:BTC"; cname := "Bitcoin";
       crest := {[ "hash_genesis_block" := VStr "00ff";
                   "blockbook" := VList [VStr "https://a"; VStr "https://b"] ]} |} in
  ∃ ok out,
    @check_backends Sample.lib (module_init Sample.everything)
      [coin; Sample.ether] = (Ok ok, out)
    ∧ length out = 4%nat
    ∧ (OUT, "checking https://b ... ") ∈ out.
Proof.
  intros coin.
  destruct (@check_backends_probes_every_backend Sample.lib
              (module_init Sample.everything) [coin; Sample.ether])
    as (ok & out & W1 & _ & W3 & W4).
  - intros c Hc Ht. apply elem_of_cons in Hc as [-> | Hc].
    + exists [VStr "https://a"; VStr "https://b"], []. split; reflexivity.
    + apply list_elem_of_singleton in Hc. subst c. discriminate Ht.
  - exists ok, out. split; [exact W1|]. split; [exact W3|].
    apply (W4 (VStr "00ff", VStr "https://b")). right. left.
Defined.

Section BackendEdgeFacts.
Context `{Library}.
Variable g : Globals.

Lemma py_add_raises a b e : py_add a b = Raise e → e = TypeError.
Proof.
  unfold py_add. intros E.
  destruct a, b; cbn in E; try discriminate E; by injection E.
Qed.

Lemma check_backends_loop_raises pre coin post st e :
  (∀ c, c ∈ pre →
     truthy (coin_get c "hash_genesis_block") = true → backends_listed c) →
  truthy (coin_get coin "hash_genesis_block") = true →
  py_add (coin_get_default coin "blockbook" (VList []))
         (coin_get_default coin "bitcore" (VList [])) = Raise e →
  check_backends_loop g (pre ++ coin :: post) st
  = (Raise e, st.2 ++ (probes pre ≫= probe_msgs g)).
Proof.
  intros Hpre Ht Hadd. revert st Hpre.
  induction pre as [|p pre IH]; intros st Hpre.
  - cbn [app check_backends_loop]. unfold backends_coin_step.
    rewrite Ht, Hadd. cbn. by rewrite app_nil_r.
  - cbn [app check_backends_loop].
    rewrite backends_coin_step_listed by (apply Hpre; left).
    rewrite IH by (intros c Hc; apply Hpre; by right).
    rewrite foldl_step_of. cbn [snd]. unfold probes.
    by rewrite bind_cons, bind_app, app_assoc.
Qed.

End BackendEdgeFacts.

(** X13. Building the list of backends is outside the [try]: when, for a coin
    with a genesis block, ["blockbook"] and ["bitcore"] cannot be added (one
    is a [str] or [None] and the other a list, say), [check_backends] raises
    [TypeError] at that coin, after the probes of the coins before it, and
    the [check] command with the backend probe ends with that exception
    instead of a verdict. *)
Theorem check_backends_raises_on_malformed_backends `{Library}
    (g : Globals) (defs : Defs)
    (support_data : list (string * gmap string pyval)) (cms : bool)
    (pre : list Coin) (coin : Coin) (post : list Coin) (e : exn) :
  requests_bound g = true →
  defs_coins defs = pre ++ coin :: post →
  (∀ c, c ∈ pre →
     truthy (coin_get c "hash_genesis_block") = true → backends_listed c) →
  truthy (coin_get coin "hash_genesis_block") = true →
  py_add (coin_get_default coin "blockbook" (VList []))
         (coin_get_default coin "bitcore" (VList [])) = Raise e →
  e = TypeError
  ∧ check_backends g (defs_coins defs)
    = (Raise TypeError, probes pre ≫= probe_msgs g)
  ∧ (check g defs support_data cms true).1 = Uncaught TypeError.
Proof.
  intros Hr Hcoins Hpre Ht Hadd.
  assert (He : e = TypeError) by (by apply (py_add_raises _ _ _ Hadd)).
  subst e.
  assert (Hcb : check_backends g (defs_coins defs)
                = (Raise TypeError, probes pre ≫= probe_msgs g)).
  { unfold check_backends. rewrite Hcoins.
    by rewrite (check_backends_loop_raises g pre coin post (true, []) TypeError). }
  split_and!; [done..|].
  unfold check. rewrite Hr, Hcb. cbn.
  destruct (check_btc (defs_coins defs)) as [b1 o1].
  by destruct (check_support defs support_data cms) as [b2 o2].
Qed.

Lemma check_backends_raises_on_malformed_backends_witness :
  let coin :=
    {| ckey := "bitcoin:BTC"; cname := "Bitcoin";
       crest := {[ "hash_genesis_block" := VStr "00ff";
                   "blockbook" := VStr "https://a" ]} |} in
  (@check Sample.lib (module_init Sample.everything)
     (Sample.registry [coin]) [] false true).1 = Uncaught TypeError.
Proof.
  intros coin.
  apply (@check_backends_raises_on_malformed_backends Sample.lib
           (module_init Sample.everything) (Sample.registry [coin]) [] false
           [] coin [] TypeError).
  - reflexivity.
  - reflexivity.
  - intros c Hc. by apply elem_of_nil in Hc.
  - reflexivity.
  - reflexivity.
Defined.

(** X14. How [check] can end: with the "install requests" error, and then
    with nothing printed, exactly when the backend probe is asked for and
    [requests] is missing; with an uncaught exception only when the backend
    probe raised it; otherwise normally or through [sys.exit(1)]. The exit
    status is 0 or 1, and 0 only for a normal end. *)
Theorem check_endings `{Library}
    (g : Globals) (defs : Defs)
    (support_data : list (string * gmap string pyval))
    (check_missing_support backend_check : bool) :
  let run := check g defs support_data check_missing_support backend_check in
  ((∃ text, run.1 = ClickException text)
   ↔ backend_check = true ∧ requests_bound g = false)
  ∧ (backend_check = true → requests_bound g = false →
     run = (ClickException "You must install requests for backend check", []))
  ∧ (∀ e, run.1 = Uncaught e →
          backend_check = true
          ∧ (check_backends g (defs_coins defs)).1 = Raise e)
  ∧ (exit_status run.1 = 0 ∨ exit_status run.1 = 1)
  ∧ (exit_status run.1 = 0 ↔ run.1 = Done ()).
Proof.
  intros run. subst run. unfold check.
  destruct (check_btc (defs_coins defs)) as [b1 o1].
  destruct (check_support defs support_data check_missing_support) as [b2 o2].
  destruct backend_check, (requests_bound g); cbn [andb negb].
  - destruct (check_backends g (defs_coins defs)) as [[ok|e] o3]; cbn [fst snd].
    + destruct b1, b2, ok; cbn; split_and!;
        try (split; [intros [? ?] | intros [? ?]]; done);
        try (intros ? ?; done); try (by left); try (by right);
        try (split; done).
    + destruct b1, b2; cbn; split_and!;
        try (split; [intros [? ?] | intros [? ?]]; done);
        try (intros ? ?; done); try (by right);
        try (split; done);
        try (intros e' Ee; injection Ee as ->; done).
  - cbn. split_and!; try done.
    + split; [done|]. intros _. by eexists.
    + by right.
  - destruct b1, b2; cbn; split_and!;
      try (split; [intros [? ?] | intros [? ?]]; done);
      try (intros ? ?; done); try (by left); try (by right);
      try (split; done).
  - destruct b1, b2; cbn; split_and!;
      try (split; [intros [? ?] | intros [? ?]]; done);
      try (intros ? ?; done); try (by left); try (by right);
      try (split; done).
Qed.

(** ** Mako filters (lines 45-62) *)

Definition dquote : string := String "034"%char "".

(** [r"\x{:02x}".format(c)]: a backslash, an x and two hexadecimal digits. *)
Definition hexescape (c : byte) : string :=
  String "092"%char (String "x"%char (hexlify [c])).

(** [c_str_filter], given [json.dumps]. *)
Definition c_str_filter (json_dumps : pyval → string) (b : pyval) : string :=
  match b with
  | VNone => "NULL"
  | VBytes bs => dquote +:+ String.concat "" (hexescape <$> bs) +:+ dquote
  | _ => json_dumps b
  end.

(** A character from the space to the tilde. *)
Definition printable (c : ascii) : bool :=
  let n := Z.of_N (N_of_ascii c) in (32 <=? n) && (n <=? 126).

(** What [re.sub("[^ -\x7e]", "_", s)] puts for one character of [s]. *)
Definition ascii_filter_char (ch : string) : string :=
  match ch with
  | String c EmptyString => if printable c then ch else "_"
  | _ => "_"
  end.

Definition ascii_filter (s : string) : string :=
  String.concat "" (ascii_filter_char <$> utf8_chars s).

Definition all_printable (s : string) : bool :=
  forallb printable (list_ascii_of_string s).

Lemma append_cons c (a b : string) : String c a +:+ b = String c (a +:+ b).
Proof. reflexivity. Qed.

Lemma append_empty_l (b : string) : "" +:+ b = b.
Proof. reflexivity. Qed.

Lemma append_empty_r (a : string) : a +:+ "" = a.
Proof. induction a as [|c a IH]; [done|]. by rewrite append_cons, IH. Qed.

Lemma concat_empty_cons (x : string) (l : list string) :
  String.concat "" (x :: l) = x +:+ String.concat "" l.
Proof.
  destruct l as [|y l]; cbn [String.concat].
  - by rewrite append_empty_r.
  - done.
Qed.

Lemma string_app_length (a b : string) :
  String.length (a +:+ b) = (String.length a + String.length b)%nat.
Proof.
  induction a as [|c a IH]; [done|].
  rewrite append_cons. cbn [String.length]. by rewrite IH.
Qed.

Lemma all_printable_app a b :
  all_printable (a +:+ b) = all_printable a && all_printable b.
Proof.
  unfold all_printable. induction a as [|c a IH]; [done|].
  rewrite append_cons. cbn [list_ascii_of_string forallb].
  by rewrite IH, andb_assoc.
Qed.

Lemma hexlify_printable bs : all_printable (hexlify bs) = true.
Proof.
  induction bs as [|b bs IH]; [done|].
  unfold all_printable in *. cbn [hexlify list_ascii_of_string forallb].
  rewrite IH, andb_true_r. apply andb_true_iff.
  split; unfold hex_digit; by repeat case_match.
Qed.

Lemma c_body_printable bs :
  all_printable (String.concat "" (hexescape <$> bs)) = true.
Proof.
  induction bs as [|b bs IH]; [done|].
  rewrite fmap_cons, concat_empty_cons, all_printable_app, IH, andb_true_r.
  by destruct b.
Qed.

Lemma c_body_length bs :
  String.length (String.concat "" (hexescape <$> bs)) = (4 * length bs)%nat.
Proof.
  induction bs as [|b bs IH]; [done|].
  rewrite fmap_cons, concat_empty_cons, string_app_length, IH.
  cbn [hexescape hexlify String.length length]. lia.
Qed.

Lemma hex_digits_injective x y :
  hex_digit (byte_val x / 16) = hex_digit (byte_val y / 16) →
  hex_digit (byte_val x mod 16) = hex_digit (byte_val y mod 16) →
  x = y.
Proof.
  intros E1 E2.
  destruct (hex_pair_decodes x) as (X1 & X2 & X3).
  destruct (hex_pair_decodes y) as (Y1 & Y2 & Y3).
  rewrite E1, Y1 in X1. rewrite E2, Y2 in X2.
  injection X1 as X1. injection X2 as X2. by rewrite <- X3, <- Y3, X1, X2.
Qed.

Lemma c_body_injective a b :
  String.concat "" (hexescape <$> a) +:+ dquote
  = String.concat "" (hexescape <$> b) +:+ dquote →
  a = b.
Proof.
  revert b. induction a as [|x a IH]; intros [|y b] E.
  - done.
  - rewrite fmap_cons, concat_empty_cons in E. unfold hexescape in E.
    rewrite !append_cons in E. discriminate E.
  - rewrite fmap_cons, concat_empty_cons in E. unfold hexescape in E.
    rewrite !append_cons in E. discriminate E.
  - rewrite !fmap_cons, !concat_empty_cons in E. unfold hexescape in E.
    cbn [hexlify] in E. rewrite !append_cons, !append_empty_l in E.
    injection E as E1 E2 E.
    f_equal; [by apply hex_digits_injective | by apply IH].
Qed.

(** X15. [c_str_filter] on [bytes]: the C string literal has four characters
    a byte between two quotes, all of them printable ASCII; it is never the
    text ["NULL"] that stands for [None]; and different byte strings give
    different literals. *)
Theorem c_str_filter_bytes (json_dumps : pyval → string) (a b : list byte) :
  String.length (c_str_filter json_dumps (VBytes a)) = (4 * length a + 2)%nat
  ∧ all_printable (c_str_filter json_dumps (VBytes a)) = true
  ∧ c_str_filter json_dumps (VBytes a) ≠ c_str_filter json_dumps VNone
  ∧ (c_str_filter json_dumps (VBytes a) = c_str_filter json_dumps (VBytes b) →
     a = b).
Proof.
  unfold c_str_filter. split_and!.
  - rewrite !string_app_length, c_body_length. cbn. lia.
  - rewrite !all_printable_app, c_body_printable. done.
  - unfold dquote. rewrite append_cons. discriminate.
  - unfold dquote at 1 3. rewrite !append_cons, !append_empty_l.
    intros E. injection E as E. by apply c_body_injective.
Qed.

(** ** ascii_filter *)

Lemma printable_not_continuation c : printable c = true → is_continuation c = false.
Proof.
  unfold printable, is_continuation. intros E.
  apply andb_true_iff in E as [_ E]. apply Z.leb_le in E.
  apply andb_false_iff. left. apply Z.leb_gt. lia.
Qed.

(** A text of printable characters is split into those characters. *)
Lemma utf8_chars_printable s :
  all_printable s = true →
  utf8_chars s = (λ c, String c "") <$> list_ascii_of_string s.
Proof.
  unfold all_printable. induction s as [|c s IH]; [done|].
  cbn [list_ascii_of_string forallb]. intros E.
  apply andb_true_iff in E as [Ec Es]. specialize (IH Es).
  cbn [utf8_chars]. rewrite IH. destruct s as [|d s]; [done|].
  cbn [list_ascii_of_string forallb] in Es.
  apply andb_true_iff in Es as [Ed _].
  cbn [list_ascii_of_string fmap list_fmap].
  by rewrite (printable_not_continuation d Ed).
Qed.

Lemma ascii_filter_char_single ch :
  ∃ c, ascii_filter_char ch = String c "" ∧ printable c = true.
Proof.
  unfold ascii_filter_char. destruct ch as [|c [|d ch]].
  - by exists "_"%char.
  - destruct (printable c) eqn:E; [by exists c | by exists "_"%char].
  - by exists "_"%char.
Qed.

Lemma concat_singletons (l : list string) :
  (∀ x, x ∈ l → ∃ c, x = String c "" ∧ printable c = true) →
  all_printable (String.concat "" l) = true
  ∧ String.length (String.concat "" l) = length l.
Proof.
  induction l as [|x l IH]; intros Hl; [done|].
  destruct (Hl x ltac:(left)) as (c & -> & Hc).
  destruct IH as [IH1 IH2]; [intros y Hy; apply Hl; by right|].
  rewrite concat_empty_cons, append_cons, append_empty_l. split.
  - unfold all_printable in *. cbn [list_ascii_of_string forallb].
    by rewrite Hc, IH1.
  - cbn [String.length length]. by rewrite IH2.
Qed.

Lemma concat_printable_chars s :
  all_printable s = true →
  String.concat "" (ascii_filter_char <$> ((λ c, String c "")
                                            <$> list_ascii_of_string s)) = s.
Proof.
  unfold all_printable. induction s as [|c s IH]; [done|].
  cbn [list_ascii_of_string forallb]. intros E.
  apply andb_true_iff in E as [Ec Es].
  rewrite !fmap_cons, concat_empty_cons, (IH Es).
  unfold ascii_filter_char. by rewrite Ec.
Qed.

(** X16. [ascii_filter] gives a text of printable ASCII characters only
    (space to tilde), one for each character of its argument; it changes
    nothing in a text that is already printable ASCII, so filtering twice is
    filtering once. *)
Theorem ascii_filter_printable (s : string) :
  all_printable (ascii_filter s) = true
  ∧ String.length (ascii_filter s) = length (utf8_chars s)
  ∧ (all_printable s = true → ascii_filter s = s)
  ∧ ascii_filter (ascii_filter s) = ascii_filter s.
Proof.
  assert (Hp : ∀ t, all_printable (ascii_filter t) = true
                    ∧ String.length (ascii_filter t) = length (utf8_chars t)).
  { intros t. unfold ascii_filter.
    destruct (concat_singletons (ascii_filter_char <$> utf8_chars t)) as [H1 H2].
    - intros x Hx. apply list_elem_of_fmap in Hx as (ch & -> & _).
      apply ascii_filter_char_single.
    - split; [done|]. by rewrite H2, length_fmap. }
  assert (Hid : ∀ t, all_printable t = true → ascii_filter t = t).
  { intros t Ht. unfold ascii_filter.
    rewrite (utf8_chars_printable t Ht). by apply concat_printable_chars. }
  split_and!.
  - apply Hp.
  - apply Hp.
  - apply Hid.
  - apply Hid, Hp.
Qed.

(** ** The render command (lines 306-354) *)

(** What a run of [render] does that can be seen from outside: the messages
    of [click.echo] and the files [render_file] wrote. *)
Inductive event : Type :=
| Echo (text : string)
| Rendered (target : string).

(** [s.endswith(suffix)]. *)
Definition endswith (s suffix : string) : bool :=
  bool_decide (list_ascii_of_string suffix `suffix_of` list_ascii_of_string s).

(** [file[: -len(".mako")]]. *)
Definition strip_mako (file : string) : string :=
  string_of_list_ascii
    (take (length (list_ascii_of_string file) - 5) (list_ascii_of_string file)).

(** The targets written, in order. *)
Definition rendered (events : list event) : list string :=
  omap (λ ev, match ev with Rendered target => Some target | Echo _ => None end)
       events.

Section Render.
Context `{Library}.
Variable g : Globals.
(** [os.path.exists], [os.path.isdir], [glob.glob(os.path.join(path,
    "*.mako"))], the loading and munching of lines 334-342, and
    [render_file(target, defs, support_info)]. *)
Variables (path_exists isdir : string → bool)
          (glob_mako : string → list string)
          (load_data : result unit)
          (render_file : string → result unit).

(** Lines 326-332. *)
Definition collect_step (st : list event * list string) (path : string)
  : list event * list string :=
  let '(events, files) := st in
  if negb (path_exists path)
  then (events ++ [Echo ("Path " +:+ path +:+ " does not exist")], files)
  else if isdir path then (events, files ++ glob_mako path)
  else (events, files ++ [path]).

(** Lines 322-332: the paths given, or the current directory. *)
Definition collect_files (paths : list string) : list event * list string :=
  let paths := match paths with [] => ["."] | _ => paths end in
  foldl collect_step ([], []) paths.

(** Lines 344-354. *)
Fixpoint render_files (files : list string) (events : list event)
  : outcome unit * list event :=
  match files with
  | [] => (Done (), events)
  | file :: files' =>
      if negb (endswith file ".mako")
      then render_files files'
             (events ++ [Echo ("File " +:+ file +:+ " does not end with .mako")])
      else
        let target := strip_mako file in
        let events :=
          events ++ [Echo ("Rendering " +:+ file +:+ " => " +:+ target)] in
        match render_file target with
        | Ok _ => render_files files' (events ++ [Rendered target])
        | Raise e =>
            (Uncaught e, events ++ [Echo ("Error occured: " +:+ exn_str e)])
        end
  end.

(** The command, with the file system and mako given. *)
Definition render_command (paths : list string) : outcome unit * list event :=
  if negb (CAN_RENDER g)
  then (ClickException "Please install 'mako' and 'munch'", [])
  else
    let '(events, files) := collect_files paths in
    match load_data with
    | Raise e => (Uncaught e, events)
    | Ok _ => render_files files events
    end.

End Render.

(** ** coins_json (lines 267-280) *)

Section CoinsJson.
(** [coin_info.support_info(coins)]: a dict from coin key to support data. *)
Variable support_info : list Coin → gmap string (gmap string pyval).



End CoinsJson.

(** ** Template names *)

Lemma string_of_list_ascii_app a b :
  string_of_list_ascii (a ++ b)
  = string_of_list_ascii a +:+ string_of_list_ascii b.
Proof. induction a as [|c a IH]; [done|]. cbn. by rewrite IH. Qed.

Lemma list_ascii_of_string_app a b :
  list_ascii_of_string (a +:+ b)
  = list_ascii_of_string a ++ list_ascii_of_string b.
Proof.
  induction a as [|c a IH]; [done|].
  rewrite append_cons. cbn. by rewrite IH.
Qed.

(** Removing the suffix of a template's name and putting it back. *)
Lemma strip_mako_suffix file :
  endswith file ".mako" = true → strip_mako file +:+ ".mako" = file.
Proof.
  unfold endswith, strip_mako. intros E. apply bool_decide_eq_true in E.
  destruct E as [k E]. rewrite E, length_app.
  rewrite take_app_length' by (cbn; lia).
  rewrite <- (string_of_list_ascii_of_string file), E.
  by rewrite string_of_list_ascii_app.
Qed.

Lemma strip_mako_of_target target :
  endswith (target +:+ ".mako") ".mako" = true
  ∧ strip_mako (target +:+ ".mako") = target.
Proof.
  unfold endswith, strip_mako. rewrite list_ascii_of_string_app. split.
  - apply bool_decide_eq_true. by eexists.
  - rewrite length_app, take_app_length' by (cbn; lia).
    apply string_of_list_ascii_of_string.
Qed.

Section RenderFacts.
Context `{Library}.
Variable g : Globals.
Variables (path_exists isdir : string → bool)
          (glob_mako : string → list string)
          (load_data : result unit)
          (render_file : string → result unit).

Lemma collect_step_files st path file :
  file ∈ (collect_step path_exists isdir glob_mako st path).2 →
  file ∈ st.2
  ∨ (path_exists path = true
     ∧ if isdir path then file ∈ glob_mako path else file = path).
Proof.
  destruct st as [ev files]. unfold collect_step.
  destruct (path_exists path); cbn [negb snd]; [|by left].
  destruct (isdir path); cbn [snd]; rewrite elem_of_app; intros [Hf | Hf].
  - by left.
  - by right.
  - by left.
  - apply list_elem_of_singleton in Hf. by right.
Qed.

Lemma collect_step_events st path :
  rendered st.1 = [] →
  rendered (collect_step path_exists isdir glob_mako st path).1 = [].
Proof.
  destruct st as [ev files]. unfold collect_step, rendered. cbn [fst].
  intros E. destruct (path_exists path); cbn [negb fst].
  - by destruct (isdir path).
  - by rewrite omap_app, E.
Qed.

Lemma collect_loop paths st :
  (rendered st.1 = [] →
   rendered (foldl (collect_step path_exists isdir glob_mako) st paths).1 = [])
  ∧ ∀ file,
      file ∈ (foldl (collect_step path_exists isdir glob_mako) st paths).2 →
      file ∈ st.2
      ∨ ∃ path, path ∈ paths ∧ path_exists path = true
                ∧ if isdir path then file ∈ glob_mako path else file = path.
Proof.
  revert st. induction paths as [|p paths IH]; intros st.
  - split; [done|]. intros file Hf. by left.
  - cbn [foldl].
    destruct (IH (collect_step path_exists isdir glob_mako st p)) as [IH1 IH2].
    split.
    + intros E. by apply IH1, collect_step_events.
    + intros file Hf. destruct (IH2 file Hf) as [Hst | (path & Hp & He & Hd)].
      * apply collect_step_files in Hst as [Hst | [He Hd]]; [by left|].
        right. exists p. split; [left | done].
      * right. exists path. split; [by right | done].
Qed.

(** What [render_files] writes, file by file. *)
Lemma render_files_rendered files events target :
  Rendered target ∈ (render_files render_file files events).2 →
  Rendered target ∈ events
  ∨ ∃ file, file ∈ files ∧ endswith file ".mako" = true
            ∧ target = strip_mako file ∧ render_file target = Ok ().
Proof.
  revert events. induction files as [|file files IH]; intros events Hr.
  - by left.
  - cbn [render_files] in Hr.
    destruct (endswith file ".mako") eqn:Ee; cbn [negb] in Hr.
    + destruct (render_file (strip_mako file)) as [[]|e] eqn:Er.
      * destruct (IH _ Hr) as [Hev | (f & Hf & He & Ht & Hok)].
        -- rewrite !elem_of_app in Hev.
           destruct Hev as [[Hev | Hev] | Hev]; [by left | |].
           ++ apply list_elem_of_singleton in Hev. discriminate Hev.
           ++ apply list_elem_of_singleton in Hev. injection Hev as ->.
              right. exists file. split; [left | done].
        -- right. exists f. split; [by right | done].
      * cbn [snd] in Hr. rewrite !elem_of_app in Hr.
        destruct Hr as [[Hr | Hr] | Hr]; [by left | |];
          apply list_elem_of_singleton in Hr; discriminate Hr.
    + destruct (IH _ Hr) as [Hev | (f & Hf & He & Ht & Hok)].
      * rewrite elem_of_app in Hev. destruct Hev as [Hev | Hev]; [by left|].
        apply list_elem_of_singleton in Hev. discriminate Hev.
      * right. exists f. split; [by right | done].
Qed.

(** Templates that render leave the loop running. *)
Lemma render_files_prefix pre rest events :
  (∀ f, f ∈ pre → endswith f ".mako" = true →
        render_file (strip_mako f) = Ok ()) →
  ∃ events',
    render_files render_file (pre ++ rest) events
    = render_files render_file rest (events ++ events')
    ∧ rendered events'
      = strip_mako <$> filter (λ f, endswith f ".mako" = true) pre.
Proof.
  revert events. induction pre as [|f pre IH]; intros events Hok.
  - exists []. by rewrite app_nil_r.
  - cbn [app render_files].
    destruct (endswith f ".mako") eqn:Ee; cbn [negb].
    + rewrite (Hok f ltac:(left) Ee).
      destruct (IH ((events ++ [Echo ("Rendering " +:+ f +:+ " => "
                                        +:+ strip_mako f)])
                    ++ [Rendered (strip_mako f)])) as (ev' & E1 & E2).
      { intros f' Hf'. apply Hok. by right. }
      eexists (_ :: _ :: ev'). split.
      * rewrite E1. by rewrite <- !app_assoc.
      * rewrite filter_cons_True by done. rewrite fmap_cons.
        unfold rendered in *. cbn [omap list_omap]. by rewrite <- E2.
    + destruct (IH (events ++ [Echo ("File " +:+ f
                                      +:+ " does not end with .mako")]))
        as (ev' & E1 & E2).
      { intros f' Hf'. apply Hok. by right. }
      eexists (_ :: ev'). split.
      * rewrite E1. by rewrite <- !app_assoc.
      * rewrite filter_cons_False by (by rewrite Ee).
        unfold rendered in *. cbn [omap list_omap]. by rewrite <- E2.
Qed.

End RenderFacts.

(** A directory of templates for the examples: rendering [coins.c] fails. *)
Module SampleFiles.

Definition exists_ (path : string) : bool := negb (String.eqb path "gone").
Definition isdir (path : string) : bool := String.eqb path ".".
Definition glob (path : string) : list string :=
  ["coins.h.mako"; "notes.txt"; "coins.c.mako"].
Definition render_file (target : string) : result unit :=
  if String.eqb target "coins.c" then Raise (LibraryError "template error")
  else Ok ().
Definition render_all (target : string) : result unit := Ok ().

End SampleFiles.

(** X17. [render] writes a file only from a template it collected: every
    target written is the name, with the suffix [.mako] removed, of a file
    that ends in [.mako] and is either a path given on the command line (or
    the current directory's, when none is given) that exists and is no
    directory, or a match of [*.mako] in a given directory; the template
    engine was found, the data loaded and the rendering went through. *)
Theorem render_writes_only_collected_templates `{Library}
    (g : Globals) (path_exists isdir : string → bool)
    (glob_mako : string → list string) (load_data : result unit)
    (render_file : string → result unit)
    (paths : list string) (target : string) :
  Rendered target
    ∈ (render_command g path_exists isdir glob_mako load_data render_file
         paths).2 →
  CAN_RENDER g = true
  ∧ load_data = Ok ()
  ∧ render_file target = Ok ()
  ∧ ∃ file path,
      file = target +:+ ".mako"
      ∧ path ∈ match paths with [] => ["."] | _ => paths end
      ∧ path_exists path = true
      ∧ if isdir path then file ∈ glob_mako path else file = path.
Proof.
  unfold render_command. intros Hr.
  destruct (CAN_RENDER g); cbn [negb] in Hr;
    [|by apply elem_of_nil in Hr].
  unfold collect_files in Hr.
  destruct (collect_loop path_exists isdir glob_mako
              (match paths with [] => ["."] | _ => paths end) ([], []))
    as [Hev Hfiles].
  destruct (foldl (collect_step path_exists isdir glob_mako) ([], []) _)
    as [events files] eqn:Ec.
  cbn [fst snd] in Hev, Hfiles.
  assert (Hnone : Rendered target ∉ events).
  { intros Hin. specialize (Hev eq_refl). unfold rendered in Hev.
    assert (Ht : target ∈ omap (λ ev, match ev with
                                      | Rendered t => Some t
                                      | Echo _ => None
                                      end) events)
      by (apply list_elem_of_omap; by exists (Rendered target)).
    rewrite Hev in Ht. by apply elem_of_nil in Ht. }
  destruct load_data as [[]|e]; [|done].
  apply render_files_rendered in Hr as [Hr | (file & Hf & He & Ht & Hok)];
    [done|].
  split_and!; [done..|].
  destruct (Hfiles file Hf) as [Hnil | (path & Hp & Hex & Hd)];
    [by apply elem_of_nil in Hnil|].
  exists file, path. split_and!; try done.
  subst target. symmetry. by apply strip_mako_suffix.
Qed.

Lemma render_writes_only_collected_templates_witness :
  CAN_RENDER (module_init Sample.everything) = true
  ∧ ∃ file path,
      file = "coins.h" +:+ ".mako" ∧ path ∈ ["."]
      ∧ SampleFiles.exists_ path = true
      ∧ if SampleFiles.isdir path then file ∈ SampleFiles.glob path
        else file = path.
Proof.
  destruct (@render_writes_only_collected_templates Sample.lib
              (module_init Sample.everything) SampleFiles.exists_
              SampleFiles.isdir SampleFiles.glob (Ok ())
              SampleFiles.render_file [] "coins.h")
    as (W1 & _ & _ & W2).
  - vm_compute. apply elem_of_cons. right. apply elem_of_cons. by left.
  - split; [exact W1 | exact W2].
Defined.

(** X18. The first template whose rendering raises ends [render]: the
    command prints "Error occured: ..." last and ends with that exception;
    the templates before it were written, the files after it are left
    alone. *)
Theorem render_stops_at_first_failing_template `{Library}
    (g : Globals) (path_exists isdir : string → bool)
    (glob_mako : string → list string) (load_data : result unit)
    (render_file : string → result unit) (paths : list string)
    (pre : list string) (file : string) (post : list string) (e : exn) :
  CAN_RENDER g = true →
  load_data = Ok () →
  (collect_files path_exists isdir glob_mako paths).2 = pre ++ file :: post →
  (∀ f, f ∈ pre → endswith f ".mako" = true →
        render_file (strip_mako f) = Ok ()) →
  endswith file ".mako" = true →
  render_file (strip_mako file) = Raise e →
  let run := render_command g path_exists isdir glob_mako load_data
               render_file paths in
  run.1 = Uncaught e
  ∧ rendered run.2 = strip_mako <$> filter (λ f, endswith f ".mako" = true) pre
  ∧ last run.2 = Some (Echo ("Error occured: " +:+ exn_str e)).
Proof.
  intros Hcan Hload Hfiles Hpre Hend Hfail run. subst run.
  unfold render_command. rewrite Hcan, Hload. cbn [negb].
  destruct (collect_loop path_exists isdir glob_mako
              (match paths with [] => ["."] | _ => paths end) ([], []))
    as [Hev _].
  unfold collect_files in *.
  destruct (foldl (collect_step path_exists isdir glob_mako) ([], []) _)
    as [events files] eqn:Ec.
  cbn [fst snd] in Hev, Hfiles. subst files. specialize (Hev eq_refl).
  destruct (render_files_prefix render_file pre (file :: post) events Hpre)
    as (ev' & E1 & E2).
  rewrite E1. cbn [render_files]. rewrite Hend, Hfail. cbn [negb fst snd].
  split_and!.
  - done.
  - unfold rendered in *. rewrite !omap_app, Hev, E2.
    cbn. by rewrite !app_nil_r.
  - by rewrite last_snoc.
Qed.

Lemma render_stops_at_first_failing_template_witness :
  let run := @render_command Sample.lib (module_init Sample.everything)
               SampleFiles.exists_ SampleFiles.isdir SampleFiles.glob (Ok ())
               SampleFiles.render_file ["gone"; "."; "late.mako"] in
  run.1 = Uncaught (LibraryError "template error")
  ∧ rendered run.2 = ["coins.h"].
Proof.
  intros run. subst run.
  destruct (@render_stops_at_first_failing_template Sample.lib
              (module_init Sample.everything) SampleFiles.exists_
              SampleFiles.isdir SampleFiles.glob (Ok ())
              SampleFiles.render_file ["gone"; "."; "late.mako"]
              ["coins.h.mako"; "notes.txt"] "coins.c.mako" ["late.mako"]
              (LibraryError "template error")) as (W1 & W2 & _).
  - reflexivity.
  - reflexivity.
  - vm_compute. reflexivity.
  - intros f Hf Hend. apply elem_of_cons in Hf as [-> | Hf];
      [vm_compute; reflexivity|].
    apply list_elem_of_singleton in Hf. subst f. discriminate Hend.
  - vm_compute. reflexivity.
  - vm_compute. reflexivity.
  - split; [exact W1|]. rewrite W2. vm_compute. reflexivity.
Defined.

(** X19. When the data loads and every collected template renders, [render]
    ends normally, having written, in order, one target for each collected
    file that ends in [.mako] and none for the others. *)
Theorem render_writes_every_template `{Library}
    (g : Globals) (path_exists isdir : string → bool)
    (glob_mako : string → list string) (load_data : result unit)
    (render_file : string → result unit) (paths : list string) :
  CAN_RENDER g = true →
  load_data = Ok () →
  (∀ f, f ∈ (collect_files path_exists isdir glob_mako paths).2 →
        endswith f ".mako" = true → render_file (strip_mako f) = Ok ()) →
  let run := render_command g path_exists isdir glob_mako load_data
               render_file paths in
  run.1 = Done ()
  ∧ rendered run.2
    = strip_mako <$> filter (λ f, endswith f ".mako" = true)
                       (collect_files path_exists isdir glob_mako paths).2.
Proof.
  intros Hcan Hload Hok run. subst run.
  unfold render_command. rewrite Hcan, Hload. cbn [negb].
  destruct (collect_loop path_exists isdir glob_mako
              (match paths with [] => ["."] | _ => paths end) ([], []))
    as [Hev _].
  unfold collect_files in *.
  destruct (foldl (collect_step path_exists isdir glob_mako) ([], []) _)
    as [events files] eqn:Ec.
  cbn [fst snd] in Hev, Hok. specialize (Hev eq_refl).
  destruct (render_files_prefix render_file files [] events Hok)
    as (ev' & E1 & E2).
  rewrite app_nil_r in E1. rewrite E1. cbn [render_files fst snd].
  split; [done|].
  unfold rendered in *. by rewrite omap_app, Hev, E2.
Qed.

Lemma render_writes_every_template_witness :
  let run := @render_command Sample.lib (module_init Sample.everything)
               SampleFiles.exists_ SampleFiles.isdir SampleFiles.glob (Ok ())
               SampleFiles.render_all [] in
  run.1 = Done () ∧ rendered run.2 = ["coins.h"; "coins.c"].
Proof.
  intros run. subst run.
  destruct (@render_writes_every_template Sample.lib
              (module_init Sample.everything) SampleFiles.exists_
              SampleFiles.isdir SampleFiles.glob (Ok ())
              SampleFiles.render_all []) as (W1 & W2).
  - reflexivity.
  - reflexivity.
  - intros f _ _. reflexivity.
  - split; [exact W1|]. rewrite W2. vm_compute. reflexivity.
Defined.

(** ** coins_json *)






